(** * Word search solver: a shallow embedding of [word_search.py]

    The Python program looks for each word of a list in a grid of letters,
    along the eight straight directions, and reports the first occurrence
    of each word.  This file embeds the loaders, the direction table, the
    bounds check, the directional matcher and the searcher, and proves the
    properties stated about them.

    Modelling choices.
    - Python integers are unbounded: rows, columns and deltas are [Z].
    - A Python [str] is a [string]; a grid cell is a [str] too (a token of
      [line.split()]), so a cell is compared with the one-character string
      made of the current character of the word.  Characters are the
      8-bit characters of [Ascii]: the model covers ASCII text.
    - The only exception the searcher can raise on a list of lists of
      strings is [IndexError], from a subscript out of range.  Fallible
      code lives in the [result] monad.
    - A [for] loop left by [break] through the flag [word_found] is the
      combinator [for_break]: the body returns the new [found_words] and
      the flag.
    - A file is the text read from it.  The loaders take the text; the
      main program looks names up in a table of files, where a name
      without an entry is a missing file, the one failure of [open] that
      the model has.  The standard output is the text printed so far. *)

From Stdlib Require Import ZArith List String Ascii Bool Lia.
From Stdlib Require Import DecimalString.
Import ListNotations.

#[local] Open Scope Z_scope.

(* ================================================================== *)
(** ** Exceptions *)

Inductive result (A : Type) : Type :=
| Ok (a : A)
| IndexError.

Arguments Ok {A} a.
Arguments IndexError {A}.

Definition bind {A B : Type} (r : result A) (k : A -> result B) : result B :=
  match r with
  | Ok a => k a
  | IndexError => IndexError
  end.

Notation "x <- c ;; k" := (bind c (fun x => k))
  (at level 61, c at next level, right associativity).
Notation "' p <- c ;; k" := (bind c (fun x => let p := x in k))
  (at level 61, p pattern, c at next level, right associativity).

(* ================================================================== *)
(** ** Python lists and ranges *)

(** [len(l)]. *)
Definition len {A : Type} (l : list A) : Z := Z.of_nat (List.length l).

(** [l[i]]: a negative subscript counts from the end; a subscript outside
    [-len(l) .. len(l)-1] raises [IndexError]. *)
Definition py_index {A : Type} (l : list A) (i : Z) : result A :=
  let j := if i <? 0 then i + len l else i in
  if (0 <=? j) && (j <? len l) then
    match nth_error l (Z.to_nat j) with
    | Some a => Ok a
    | None => IndexError
    end
  else IndexError.

(** [range(n)]. *)
Definition range (n : Z) : list Z := map Z.of_nat (seq 0 (Z.to_nat n)).

(** A [for] loop over [xs] whose body may end the loop: the body returns
    the new state and whether the loop is left. *)
Fixpoint for_break {A S : Type} (body : A -> S -> result (S * bool))
    (xs : list A) (s : S) : result (S * bool) :=
  match xs with
  | [] => Ok (s, false)
  | x :: rest =>
      ' (s', stop) <- body x s ;;
      if stop then Ok (s', true) else for_break body rest s'
  end.

(* ================================================================== *)
(** ** Data model *)

Definition Grid : Type := list (list string).

(** [(row_change, col_change, direction_name)]. *)
Definition Direction : Type := (Z * Z * string)%type.

(** [(word, start_row_1based, start_col_1based, direction)]. *)
Definition Match : Type := (string * Z * Z * string)%type.

Definition delta_row (d : Direction) : Z := fst (fst d).
Definition delta_col (d : Direction) : Z := snd (fst d).
Definition direction_name (d : Direction) : string := snd d.

Definition match_word (m : Match) : string := fst (fst (fst m)).
Definition match_row (m : Match) : Z := snd (fst (fst m)).
Definition match_col (m : Match) : Z := snd (fst m).
Definition match_direction (m : Match) : string := snd m.

(* ================================================================== *)
(** ** Direction table *)

Definition get_directions : list Direction :=
  [ (0, 1, "horizontal_right"%string);
    (0, -1, "horizontal_left"%string);
    (1, 0, "vertical_down"%string);
    (-1, 0, "vertical_up"%string);
    (1, 1, "diagonal_down_right"%string);
    (1, -1, "diagonal_down_left"%string);
    (-1, 1, "diagonal_up_right"%string);
    (-1, -1, "diagonal_up_left"%string) ].

(* ================================================================== *)
(** ** Position validator *)

(** [return 0 <= row < len(grid) and 0 <= col < len(grid[0])]: the chained
    comparisons and [and] evaluate left to right and stop at the first
    false one, so [grid[0]] is read only when [0 <= row < len(grid)] and
    [0 <= col] hold. *)
Definition is_valid_position (grid : Grid) (row col : Z) : result bool :=
  if (0 <=? row) && (row <? len grid) then
    if 0 <=? col then
      row0 <- py_index grid 0 ;;
      Ok (col <? len row0)
    else Ok false
  else Ok false.

(* ================================================================== *)
(** ** Directional matcher *)

(** The loop [for i, char in enumerate(word)], from index [i] on. *)
Fixpoint find_word_from (grid : Grid) (chars : string) (i : Z)
    (start_row start_col delta_row delta_col : Z) : result bool :=
  match chars with
  | EmptyString => Ok true
  | String char rest =>
      let row := start_row + i * delta_row in
      let col := start_col + i * delta_col in
      valid <- is_valid_position grid row col ;;
      if negb valid then Ok false
      else
        r <- py_index grid row ;;
        cell <- py_index r col ;;
        if negb (cell =? String char EmptyString)%string then Ok false
        else find_word_from grid rest (i + 1)
               start_row start_col delta_row delta_col
  end.

Definition find_word_in_direction (grid : Grid) (word : string)
    (start_row start_col delta_row delta_col : Z) : result bool :=
  find_word_from grid word 0 start_row start_col delta_row delta_col.

(* ================================================================== *)
(** ** Grid searcher *)

(** Body of [for delta_row, delta_col, direction in directions]. *)
Definition direction_body (grid : Grid) (word : string)
    (start_row start_col : Z) (d : Direction) (found_words : list Match)
    : result (list Match * bool) :=
  let '(delta_row, delta_col, direction) := d in
  found <- find_word_in_direction grid word start_row start_col
             delta_row delta_col ;;
  if found then
    Ok (found_words ++ [(word, start_row + 1, start_col + 1, direction)],
        true)
  else Ok (found_words, false).

(** Body of [for start_col in range(len(grid[0]))]. *)
Definition column_body (grid : Grid) (directions : list Direction)
    (word : string) (start_row start_col : Z) (found_words : list Match)
    : result (list Match * bool) :=
  for_break (direction_body grid word start_row start_col)
    directions found_words.

(** Body of [for start_row in range(len(grid))]; [range(len(grid[0]))] is
    evaluated anew for each row. *)
Definition row_body (grid : Grid) (directions : list Direction)
    (word : string) (start_row : Z) (found_words : list Match)
    : result (list Match * bool) :=
  row0 <- py_index grid 0 ;;
  for_break (column_body grid directions word start_row)
    (range (len row0)) found_words.

(** The loop [for word in words]. *)
Fixpoint words_loop (grid : Grid) (directions : list Direction)
    (words : list string) (found_words : list Match)
    : result (list Match) :=
  match words with
  | [] => Ok found_words
  | word :: rest =>
      ' (found_words', _) <-
        for_break (row_body grid directions word)
          (range (len grid)) found_words ;;
      words_loop grid directions rest found_words'
  end.

Definition search_for_words (grid : Grid) (words : list string)
    : result (list Match) :=
  let found_words := [] in
  let directions := get_directions in
  words_loop grid directions words found_words.

(* ================================================================== *)
(** ** Loaders *)

(** [str.isspace] on an ASCII character: tab, line feed, vertical tab,
    form feed, carriage return, the four separators 28..31 and space. *)
Definition isspace (c : ascii) : bool :=
  let n := nat_of_ascii c in
  ((9 <=? n) && (n <=? 13) || (28 <=? n) && (n <=? 31) || (n =? 32))%nat.

Fixpoint lstrip (s : string) : string :=
  match s with
  | EmptyString => EmptyString
  | String c rest => if isspace c then lstrip rest else s
  end.

Fixpoint rstrip (s : string) : string :=
  match s with
  | EmptyString => EmptyString
  | String c rest =>
      match rstrip rest with
      | EmptyString => if isspace c then EmptyString
                       else String c EmptyString
      | rest' => String c rest'
      end
  end.

(** [s.strip()]. *)
Definition strip (s : string) : string := rstrip (lstrip s).

(** [s.split()]: the maximal runs of characters that are not whitespace;
    [cur] is the run being read. *)
Fixpoint split_from (s cur : string) : list string :=
  match s with
  | EmptyString =>
      match cur with EmptyString => [] | _ => [cur] end
  | String c rest =>
      if isspace c then
        match cur with
        | EmptyString => split_from rest EmptyString
        | _ => cur :: split_from rest EmptyString
        end
      else split_from rest (cur ++ String c EmptyString)%string
  end.

Definition split (s : string) : list string := split_from s EmptyString.

(** [s.upper()] on ASCII text: the letters a to z become A to Z.  Beyond
    ASCII [str.upper] changes other letters too, some into several
    characters; the properties that depend on [upper] are stated for
    ASCII text. *)
Definition upper_char (c : ascii) : ascii :=
  let n := nat_of_ascii c in
  if ((97 <=? n) && (n <=? 122))%nat then ascii_of_nat (n - 32) else c.

Fixpoint upper (s : string) : string :=
  match s with
  | EmptyString => EmptyString
  | String c rest => String (upper_char c) (upper rest)
  end.

(** [for line in f]: the lines of the text, each with its line feed; the
    text is the one Python hands out, with line ends already translated
    to a line feed. *)
Fixpoint lines_from (text cur : string) : list string :=
  match text with
  | EmptyString =>
      match cur with EmptyString => [] | _ => [cur] end
  | String c rest =>
      if (c =? "010")%char then
        (cur ++ String c EmptyString)%string :: lines_from rest EmptyString
      else lines_from rest (cur ++ String c EmptyString)%string
  end.

Definition lines (text : string) : list string :=
  lines_from text EmptyString.

Definition nonempty (s : string) : bool :=
  match s with EmptyString => false | _ => true end.

(** The loop of [load_grid] over the lines of the file. *)
Fixpoint load_grid_lines (ls : list string) (grid : Grid) : Grid :=
  match ls with
  | [] => grid
  | line :: rest =>
      let line := strip line in
      if nonempty line then
        let letters := filter nonempty (split line) in
        load_grid_lines rest (grid ++ [letters])
      else load_grid_lines rest grid
  end.

(** [load_grid], on the text of the file. *)
Definition load_grid (file : string) : Grid :=
  load_grid_lines (lines file) [].

(** The loop of [load_words] over the lines of the file. *)
Fixpoint load_words_lines (ls : list string) (words : list string)
    : list string :=
  match ls with
  | [] => words
  | line :: rest =>
      let word := upper (strip line) in
      if nonempty word then load_words_lines rest (words ++ [word])
      else load_words_lines rest words
  end.

(** [load_words], on the text of the file. *)
Definition load_words (file : string) : list string :=
  load_words_lines (lines file) [].

(* ================================================================== *)
(** ** Sample inputs *)

Definition line_feed : string := String "010"%char EmptyString.

Definition grid_file : string :=
  ("W I S D O M" ++ line_feed ++ "B C I A K D" ++ line_feed
   ++ "S H A I M E" ++ line_feed)%string.

Definition words_file : string := ("WISDOM" ++ line_feed)%string.

Definition grid_wisdom : Grid :=
  [ ["W"; "I"; "S"; "D"; "O"; "M"];
    ["B"; "C"; "I"; "A"; "K"; "D"];
    ["S"; "H"; "A"; "I"; "M"; "E"] ]%string.

Definition grid_abcd : Grid := [ ["A"; "B"]; ["C"; "D"] ]%string.

Definition grid_ragged : Grid := [ ["A"; "B"]; ["C"] ]%string.

(** A grid where [AA] occurs at several cells, and at the first of them
    in two directions. *)
Definition grid_abaa : Grid := [ ["A"; "B"]; ["A"; "A"] ]%string.

(* ================================================================== *)
(** ** Main program *)

(** The files by name; a name without an entry is a missing file. *)
Definition FileSystem : Type := string -> option string.

(** [open(name, 'w')], the writes and the closing of the file. *)
Definition write_file (fs : FileSystem) (name content : string)
    : FileSystem :=
  fun n => if String.eqb n name then Some content else fs n.

(** What leaves the [try] block of [main] early: a missing file, or any
    other exception, with its message. *)
Inductive exception : Type :=
| FileNotFoundError (filename : string)
| OtherException (message : string).

(** The message of the [IndexError] of a list subscript. *)
Definition index_error_message : string := "list index out of range".

(** [print(s)]: the text and a line feed, after what was printed. *)
Definition print (s : string) (stdout : string) : string :=
  (stdout ++ s ++ line_feed)%string.

(** [str(z)] and [f"{z}"] for an integer. *)
Definition str_of_int (z : Z) : string :=
  NilZero.string_of_int (Z.to_int z).

Fixpoint repeat_char (c : ascii) (n : nat) : string :=
  match n with
  | O => EmptyString
  | S n' => String c (repeat_char c n')
  end.

(** [f"{s:<n}"] and [f"{s:>n}"]: spaces after or before, up to the width;
    a longer text is kept whole. *)
Definition ljust (n : nat) (s : string) : string :=
  (s ++ repeat_char " " (n - String.length s))%string.

Definition rjust (n : nat) (s : string) : string :=
  (repeat_char " " (n - String.length s) ++ s)%string.

Definition table_header : string :=
  (ljust 15 "Word" ++ " " ++ rjust 9 "Start Row" ++ " "
   ++ rjust 9 "Start Col" ++ " " ++ ljust 20 "Direction")%string.

(** ["-" * 55]. *)
Definition table_rule : string := repeat_char "-" 55.

(** [f"{word:<15} {row:>9} {col:>9} {direction:<20}"]. *)
Definition table_row (m : Match) : string :=
  let '(word, row, col, direction) := m in
  (ljust 15 word ++ " " ++ rjust 9 (str_of_int row) ++ " "
   ++ rjust 9 (str_of_int col) ++ " " ++ ljust 20 direction)%string.

(** The loop that prints the rows, and the loop that writes them. *)
Fixpoint print_rows (found_words : list Match) (stdout : string) : string :=
  match found_words with
  | [] => stdout
  | m :: rest => print_rows rest (print (table_row m) stdout)
  end.

Fixpoint write_rows (found_words : list Match) (content : string) : string :=
  match found_words with
  | [] => content
  | m :: rest => write_rows rest (content ++ table_row m ++ line_feed)%string
  end.

Definition results_file : string := "word_search_results.txt".

(** The [try] block of [main]: the output, the files, and the exception
    that left the block, if any.  The block is the one of a run in which
    every file that exists reads as text and the results file can be
    written: a file that cannot be read or decoded, or a results file
    that cannot be opened, leaves the real block through the second
    handler too, and the model does not have these failures.  [load_grid] opens the grid file before
    [load_words] opens the word file; the banner reads [grid[0]] before
    anything is printed. *)
Definition main_try (grid_file words_file : string) (fs : FileSystem)
    (stdout : string) : string * FileSystem * option exception :=
  match fs grid_file with
  | None => (stdout, fs, Some (FileNotFoundError grid_file))
  | Some grid_text =>
  let grid := load_grid grid_text in
  match fs words_file with
  | None => (stdout, fs, Some (FileNotFoundError words_file))
  | Some words_text =>
  let words := load_words words_text in
  match py_index grid 0 with
  | IndexError => (stdout, fs, Some (OtherException index_error_message))
  | Ok row0 =>
  let stdout :=
    print ("Loaded grid with " ++ str_of_int (len grid) ++ " rows and "
           ++ str_of_int (len row0) ++ " columns")%string stdout in
  let stdout :=
    print ("Searching for " ++ str_of_int (len words) ++ " words...")%string
      stdout in
  let stdout := print EmptyString stdout in
  match search_for_words grid words with
  | IndexError => (stdout, fs, Some (OtherException index_error_message))
  | Ok found_words =>
  let stdout :=
    match found_words with
    | [] => print "No words found in the grid." stdout
    | _ :: _ =>
        let stdout :=
          print ("Found " ++ str_of_int (len found_words) ++ " words:")%string
            stdout in
        let stdout := print table_header stdout in
        let stdout := print table_rule stdout in
        print_rows found_words stdout
    end in
  let content :=
    write_rows found_words
      (table_header ++ line_feed ++ table_rule ++ line_feed)%string in
  let fs := write_file fs results_file content in
  let stdout :=
    print (line_feed ++ "Results also saved to word_search_results.txt")%string
      stdout in
  (stdout, fs, None)
  end end end end.

(** How a run ends: what was printed, the files, and the exit status. *)
Record outcome : Type := {
  out_stdout : string;
  out_files : FileSystem;
  exit_code : Z
}.

(** [main], on [sys.argv], the files and the output so far.  The test
    [len(sys.argv) != 3] is the match on lists of three names; returning
    from [main] ends the run with status 0, [sys.exit(1)] with 1. *)
Definition main (argv : list string) (fs : FileSystem) (stdout : string)
    : outcome :=
  match argv with
  | [_; grid_file; words_file] =>
      match main_try grid_file words_file fs stdout with
      | (stdout, fs, None) =>
          {| out_stdout := stdout; out_files := fs; exit_code := 0 |}
      | (stdout, fs, Some (FileNotFoundError filename)) =>
          let stdout :=
            print ("Error: File not found - " ++ filename)%string stdout in
          let stdout :=
            print "Make sure both grid file and words file exist." stdout in
          {| out_stdout := stdout; out_files := fs; exit_code := 1 |}
      | (stdout, fs, Some (OtherException message)) =>
          let stdout := print ("Error: " ++ message)%string stdout in
          let stdout :=
            print "Something went wrong. Check your input files are in the correct format."
              stdout in
          {| out_stdout := stdout; out_files := fs; exit_code := 1 |}
      end
  | _ =>
      let stdout :=
        print "Usage: python word_search.py <grid_file> <words_file>"
          stdout in
      let stdout :=
        print "Example: python word_search.py letter_grid.txt words_to_search.txt"
          stdout in
      {| out_stdout := stdout; out_files := fs; exit_code := 1 |}
  end.

(** The output only grows. *)
Definition extends (stdout stdout' : string) : Prop :=
  exists printed, stdout' = (stdout ++ printed)%string.

(** What the [try] block does, case by case. *)
Inductive try_result (grid_file words_file : string) (fs : FileSystem)
    : FileSystem -> option exception -> Prop :=
| try_no_grid :
    fs grid_file = None ->
    try_result grid_file words_file fs fs
      (Some (FileNotFoundError grid_file))
| try_no_words (grid_text : string) :
    fs grid_file = Some grid_text -> fs words_file = None ->
    try_result grid_file words_file fs fs
      (Some (FileNotFoundError words_file))
| try_empty_grid (grid_text words_text : string) :
    fs grid_file = Some grid_text -> fs words_file = Some words_text ->
    load_grid grid_text = [] ->
    try_result grid_file words_file fs fs
      (Some (OtherException index_error_message))
| try_search_raises (grid_text words_text : string) :
    fs grid_file = Some grid_text -> fs words_file = Some words_text ->
    load_grid grid_text <> [] ->
    search_for_words (load_grid grid_text) (load_words words_text)
    = IndexError ->
    try_result grid_file words_file fs fs
      (Some (OtherException index_error_message))
| try_done (grid_text words_text : string) (found_words : list Match) :
    fs grid_file = Some grid_text -> fs words_file = Some words_text ->
    load_grid grid_text <> [] ->
    search_for_words (load_grid grid_text) (load_words words_text)
    = Ok found_words ->
    try_result grid_file words_file fs
      (write_file fs results_file
         (write_rows found_words
            (table_header ++ line_feed ++ table_rule ++ line_feed)%string))
      None.

(** The fields of a row of the table. *)
Definition match_fields (m : Match) : list string :=
  [ match_word m; str_of_int (match_row m); str_of_int (match_col m);
    match_direction m ].

(** Files for a run: the grid and the words of the sample. *)
Definition sample_files : FileSystem :=
  fun n =>
    if String.eqb n "grid.txt" then Some grid_file
    else if String.eqb n "words.txt" then Some ("wisdom" ++ line_feed ++ "zebra" ++ line_feed ++ "mde")%string
    else None.

(* ================================================================== *)
(** ** Vocabulary of the properties *)

(** Number of rows, and of columns as the searcher measures it: the
    length of the first row. *)
Definition nrows (g : Grid) : Z := len g.

Definition ncols (g : Grid) : Z :=
  match g with
  | [] => 0
  | row0 :: _ => len row0
  end.

(** The bounds check, as a boolean on the two measures. *)
Definition in_bounds (g : Grid) (row col : Z) : bool :=
  (0 <=? row) && (row <? nrows g) && ((0 <=? col) && (col <? ncols g)).

(** A grid of [R] rows that all have [C] cells. *)
Definition rectangular (g : Grid) (R C : Z) : Prop :=
  len g = R /\ Forall (fun row => len row = C) g.

(** The cell at a position inside the grid. *)
Definition cell (g : Grid) (row col : Z) : option string :=
  match nth_error g (Z.to_nat row) with
  | Some r => nth_error r (Z.to_nat col)
  | None => None
  end.

(** The one-character string of a character. *)
Definition str (ch : ascii) : string := String ch EmptyString.

(** The letters of [word], from index [i] on, lie inside the grid along
    the direction [(dr, dc)] from the start cell, and each cell holds the
    letter of its index. *)
Definition matches_from (g : Grid) (R C : Z) (word : string) (i : Z)
    (start_row start_col dr dc : Z) : Prop :=
  forall k : nat, (k < String.length word)%nat ->
    let row := start_row + (i + Z.of_nat k) * dr in
    let col := start_col + (i + Z.of_nat k) * dc in
    (0 <= row < R /\ 0 <= col < C) /\
    exists ch, String.get k word = Some ch /\ cell g row col = Some (str ch).

Definition matches_along (g : Grid) (R C : Z) (word : string)
    (start_row start_col dr dc : Z) : Prop :=
  matches_from g R C word 0 start_row start_col dr dc.

(** The word occurs at the start cell in the direction [d]. *)
Definition occurs (g : Grid) (word : string) (r c : Z) (d : Direction)
    : Prop :=
  find_word_in_direction g word r c (delta_row d) (delta_col d) = Ok true.

(** The match [m] reports an occurrence of [word] in the grid. *)
Definition reports (g : Grid) (R C : Z) (word : string) (m : Match) : Prop :=
  exists r c d,
    (0 <= r < R /\ 0 <= c < C) /\ In d get_directions
    /\ occurs g word r c d
    /\ m = (word, r + 1, c + 1, direction_name d).

(** The matcher rejects [word] at every cell, in every direction. *)
Definition found_nowhere (g : Grid) (R C : Z) (word : string) : Prop :=
  forall r c d, 0 <= r < R -> 0 <= c < C -> In d get_directions ->
    find_word_in_direction g word r c (delta_row d) (delta_col d) = Ok false.

(** Order of the search: rows, then columns, then the index of the
    direction in the table. *)
Definition search_le (a b : Z * Z * nat) : Prop :=
  let '(r1, c1, k1) := a in
  let '(r2, c2, k2) := b in
  r1 < r2 \/ (r1 = r2 /\ (c1 < c2 \/ (c1 = c2 /\ (k1 <= k2)%nat))).

(** The list made of an optional element. *)
Definition olist {A : Type} (o : option A) : list A :=
  match o with
  | Some a => [a]
  | None => []
  end.

(** The effect of one search on the pair of [found_words] and
    [word_found]. *)
Definition record (o : option Match) (found_words : list Match)
    : list Match * bool :=
  match o with
  | Some m => (found_words ++ [m], true)
  | None => (found_words, false)
  end.

(** The first element of [xs] for which [pick] yields something; a
    failure before it is the failure of the whole. *)
Fixpoint first_some {A B : Type} (pick : A -> result (option B))
    (xs : list A) : result (option B) :=
  match xs with
  | [] => Ok None
  | x :: rest =>
      o <- pick x ;;
      match o with
      | Some b => Ok (Some b)
      | None => first_some pick rest
      end
  end.

(** What the three loops of the searcher compute, without the state. *)
Definition pick_direction (g : Grid) (word : string) (r c : Z)
    (d : Direction) : result (option Match) :=
  found <- find_word_in_direction g word r c (delta_row d) (delta_col d) ;;
  Ok (if found then Some (word, r + 1, c + 1, direction_name d) else None).

Definition pick_column (g : Grid) (dirs : list Direction) (word : string)
    (r c : Z) : result (option Match) :=
  first_some (pick_direction g word r c) dirs.

Definition pick_row (g : Grid) (dirs : list Direction) (word : string)
    (r : Z) : result (option Match) :=
  row0 <- py_index g 0 ;;
  first_some (pick_column g dirs word r) (range (len row0)).

Definition first_match (g : Grid) (dirs : list Direction) (word : string)
    : result (option Match) :=
  first_some (pick_row g dirs word) (range (len g)).

(** The results of the words, one after the other. *)
Fixpoint collect (g : Grid) (dirs : list Direction) (words : list string)
    : result (list Match) :=
  match words with
  | [] => Ok []
  | word :: rest =>
      o <- first_match g dirs word ;;
      ms <- collect g dirs rest ;;
      Ok (olist o ++ ms)
  end.

(** [a + b] on two lists that may have raised. *)
Definition app_result {A : Type} (a b : result (list A)) : result (list A) :=
  x <- a ;; y <- b ;; Ok (x ++ y).

(* ================================================================== *)
(** ** Further vocabulary *)

(** Every row has at least as many cells as the first one. *)
Definition wide_enough (g : Grid) : Prop :=
  Forall (fun row => ncols g <= len row) g.

(** The grid with every row cut to the length of the first one. *)
Definition truncate (g : Grid) : Grid :=
  map (firstn (Z.to_nat (ncols g))) g.

(** [word[::-1]]. *)
Definition reverse (s : string) : string :=
  string_of_list_ascii (rev (list_ascii_of_string s)).

(** All the characters of a string pass a test. *)
Fixpoint string_forallb (p : ascii -> bool) (s : string) : bool :=
  match s with
  | EmptyString => true
  | String c rest => p c && string_forallb p rest
  end.

(** A string of whitespace only, and a string without whitespace. *)
Definition blank (s : string) : bool := string_forallb isspace s.

Definition space_free (s : string) : bool :=
  string_forallb (fun c => negb (isspace c)) s.

(** A text of ASCII characters only.  On such a text [upper], [strip]
    and [split] are what [str.upper], [str.strip] and [str.split] do. *)
Definition is_ascii (s : string) : bool :=
  string_forallb (fun c => (nat_of_ascii c <? 128)%nat) s.

(** A row with at least one cell. *)
Definition has_cells (row : list string) : bool :=
  match row with
  | [] => false
  | _ => true
  end.

(** A token: a text that is not empty and holds no whitespace. *)
Definition token (s : string) : Prop :=
  nonempty s = true /\ space_free s = true.

(** A text without line feed. *)
Definition one_line (s : string) : bool :=
  string_forallb (fun c => negb (Ascii.eqb c "010")) s.

(* ================================================================== *)
(** ** Runs of the model *)

Example load_grid_example :
  load_grid grid_file = grid_wisdom.
Proof. vm_compute. reflexivity. Qed.

Example load_words_example :
  load_words ("  wisdom " ++ line_feed ++ line_feed ++ "Genesis")%string
  = [ "WISDOM"; "GENESIS" ]%string.
Proof. vm_compute. reflexivity. Qed.

Example search_wisdom :
  search_for_words grid_wisdom
    [ "WISDOM"; "XYZ"; "MDE"; "SIW"; "AIS" ]%string
  = Ok [ ("WISDOM", 1, 1, "horizontal_right");
         ("MDE", 1, 6, "vertical_down");
         ("SIW", 1, 3, "horizontal_left");
         ("AIS", 3, 3, "vertical_up") ]%string.
Proof. vm_compute. reflexivity. Qed.

Example search_ragged :
  search_for_words grid_ragged [ "Z" ]%string = IndexError.
Proof. vm_compute. reflexivity. Qed.

(** The search stops at the first hit: the cell missing from the second
    row is never read when the word is found before it. *)
Example search_ragged_found :
  search_for_words grid_ragged [ "A" ]%string
  = Ok [ ("A", 1, 1, "horizontal_right") ]%string.
Proof. vm_compute. reflexivity. Qed.

(* ================================================================== *)
(** ** Lists and subscripts *)

Lemma len_nonneg {A : Type} (l : list A) : 0 <= len l.
Proof. unfold len. lia. Qed.

Lemma len_cons {A : Type} (a : A) (l : list A) : len (a :: l) = len l + 1.
Proof. unfold len. simpl List.length. lia. Qed.

Lemma py_index_inside {A : Type} (l : list A) (i : Z) :
  0 <= i < len l ->
  exists a, py_index l i = Ok a /\ nth_error l (Z.to_nat i) = Some a.
Proof.
  intros Hi. unfold py_index.
  replace (i <? 0) with false by (symmetry; apply Z.ltb_ge; lia).
  replace (0 <=? i) with true by (symmetry; apply Z.leb_le; lia).
  replace (i <? len l) with true by (symmetry; apply Z.ltb_lt; lia).
  simpl. destruct (nth_error l (Z.to_nat i)) as [a|] eqn:E.
  - exists a. split; reflexivity.
  - apply nth_error_None in E. unfold len in Hi. lia.
Qed.

Lemma py_index_first {A : Type} (a : A) (l : list A) :
  py_index (a :: l) 0 = Ok a.
Proof.
  destruct (py_index_inside (a :: l) 0) as [x [H1 H2]].
  - rewrite len_cons. pose proof (len_nonneg l). lia.
  - simpl in H2. congruence.
Qed.

Lemma range_length (n : Z) : List.length (range n) = Z.to_nat n.
Proof. unfold range. rewrite length_map, length_seq. reflexivity. Qed.

Lemma in_range (n x : Z) : In x (range n) <-> 0 <= x < n.
Proof.
  unfold range. rewrite in_map_iff. split.
  - intros [k [<- Hk]]. apply in_seq in Hk. lia.
  - intros Hx. exists (Z.to_nat x). split; [lia|]. apply in_seq. lia.
Qed.

Lemma seq_split (l1 : list nat) : forall (a n y : nat) (l2 : list nat),
  seq a n = l1 ++ y :: l2 -> (a <= y)%nat /\ l1 = seq a (y - a).
Proof.
  induction l1 as [|z l1 IH]; intros a n y l2 H.
  - destruct n as [|n]; simpl in H; [discriminate|].
    injection H as -> _. rewrite Nat.sub_diag. split; [lia | reflexivity].
  - destruct n as [|n]; simpl in H; [discriminate|].
    injection H as <- H. apply IH in H. destruct H as [Hle ->].
    split; [lia|].
    replace (y - a)%nat with (S (y - S a)) by lia. reflexivity.
Qed.

(** Where a range is cut, the left part is the range up to the cut. *)
Lemma range_split (n x : Z) (pre post : list Z) :
  range n = pre ++ x :: post ->
  0 <= x < n /\ pre = range x.
Proof.
  intros H.
  assert (Hx : 0 <= x < n).
  { apply in_range. rewrite H. apply in_or_app. right. left. reflexivity. }
  split; [exact Hx|].
  unfold range in *.
  apply map_eq_app in H.
  destruct H as [l1 [l2 [Hseq [Hpre Hpost]]]].
  destruct l2 as [|y l2]; [discriminate|].
  simpl in Hpost. injection Hpost as Hy _.
  apply seq_split in Hseq. destruct Hseq as [_ ->].
  rewrite <- Hpre. f_equal. f_equal. lia.
Qed.

(* ================================================================== *)
(** ** The validator *)

Lemma is_valid_position_in_bounds (g : Grid) (row col : Z) :
  is_valid_position g row col = Ok (in_bounds g row col).
Proof.
  unfold is_valid_position, in_bounds, nrows.
  destruct ((0 <=? row) && (row <? len g)) eqn:Hrow; [|reflexivity].
  destruct g as [|row0 g].
  - apply andb_true_iff in Hrow. destruct Hrow as [H1 H2].
    apply Z.leb_le in H1. apply Z.ltb_lt in H2. unfold len in H2.
    simpl in H2. lia.
  - rewrite py_index_first. simpl.
    destruct (0 <=? col); reflexivity.
Qed.

Lemma rectangular_ncols (g : Grid) (R C : Z) :
  rectangular g R C -> 1 <= R -> ncols g = C.
Proof.
  intros [HR HC] H1. destruct g as [|row0 g].
  - unfold len in HR. simpl in HR. lia.
  - inversion HC; subst. reflexivity.
Qed.

Lemma in_bounds_rectangular (g : Grid) (R C row col : Z) :
  rectangular g R C ->
  in_bounds g row col = true <-> (0 <= row < R /\ 0 <= col < C).
Proof.
  intros Hg. unfold in_bounds, nrows.
  rewrite !andb_true_iff, !Z.leb_le, !Z.ltb_lt.
  pose proof (rectangular_ncols g R C Hg) as HC.
  destruct Hg as [HR _]. split.
  - intros [[H1 H2] [H3 H4]]. rewrite HC in H4 by lia. lia.
  - intros [[H1 H2] [H3 H4]]. rewrite HC by lia. lia.
Qed.

(** Inside a rectangular grid both subscripts of [grid[row][col]] are in
    range. *)
Lemma cell_inside (g : Grid) (R C row col : Z) :
  rectangular g R C ->
  0 <= row < R -> 0 <= col < C ->
  exists r x, py_index g row = Ok r /\ py_index r col = Ok x
              /\ cell g row col = Some x.
Proof.
  intros [HR HC] Hrow Hcol.
  destruct (py_index_inside g row) as [r [Hr Hnth]]; [lia|].
  assert (Hlen : len r = C).
  { rewrite Forall_forall in HC. apply HC.
    apply nth_error_In with (n := Z.to_nat row). exact Hnth. }
  destruct (py_index_inside r col) as [x [Hx Hnth']]; [lia|].
  exists r, x. unfold cell. rewrite Hnth. auto.
Qed.

(* ================================================================== *)
(** ** The matcher *)

Lemma matches_from_nil (g : Grid) (R C i sr sc dr dc : Z) :
  matches_from g R C EmptyString i sr sc dr dc.
Proof. intros k Hk. simpl in Hk. lia. Qed.

Lemma matches_from_cons (g : Grid) (R C : Z) (ch : ascii) (rest : string)
    (i sr sc dr dc : Z) :
  matches_from g R C (String ch rest) i sr sc dr dc <->
  ((0 <= sr + i * dr < R /\ 0 <= sc + i * dc < C)
   /\ cell g (sr + i * dr) (sc + i * dc) = Some (str ch))
  /\ matches_from g R C rest (i + 1) sr sc dr dc.
Proof.
  unfold matches_from. split.
  - intros H. split.
    + specialize (H 0%nat). simpl in H.
      rewrite Z.add_0_r in H.
      destruct H as [Hb [c [Hc Hcell]]]; [lia|].
      injection Hc as <-. auto.
    + intros k Hk. specialize (H (S k)). simpl in H.
      replace (i + Z.pos (Pos.of_succ_nat k)) with (i + 1 + Z.of_nat k)
        in H by lia.
      apply H. lia.
  - intros [[Hb Hcell] H] k Hk. destruct k as [|k].
    + simpl. rewrite Z.add_0_r. split; [exact Hb|].
      exists ch. auto.
    + simpl in Hk. specialize (H k). simpl in H.
      simpl String.get.
      replace (i + Z.of_nat (S k)) with (i + 1 + Z.of_nat k) by lia.
      apply H. lia.
Qed.

(** On a rectangular grid the matcher never raises, and answers whether
    the letters match along the direction. *)
Lemma find_word_from_spec (g : Grid) (R C : Z) (sr sc dr dc : Z) :
  rectangular g R C ->
  forall (chars : string) (i : Z),
  exists b, find_word_from g chars i sr sc dr dc = Ok b
            /\ (b = true <-> matches_from g R C chars i sr sc dr dc).
Proof.
  intros Hg chars. induction chars as [|ch rest IH]; intros i.
  - exists true. split; [reflexivity|].
    split; [intros _; apply matches_from_nil | reflexivity].
  - simpl find_word_from. rewrite is_valid_position_in_bounds. simpl bind.
    destruct (in_bounds g (sr + i * dr) (sc + i * dc)) eqn:Hb; simpl negb.
    + apply (in_bounds_rectangular g R C) in Hb; [|exact Hg].
      destruct Hb as [Hrow Hcol].
      destruct (cell_inside g R C _ _ Hg Hrow Hcol)
        as [r [x [Hr [Hx Hcell]]]].
      rewrite Hr. simpl bind. rewrite Hx. simpl bind.
      destruct (String.eqb x (String ch EmptyString)) eqn:Heq; simpl negb.
      * apply String.eqb_eq in Heq. subst x.
        destruct (IH (i + 1)) as [b [Hfind Hiff]].
        exists b. split; [exact Hfind|].
        rewrite matches_from_cons. rewrite Hiff. tauto.
      * apply String.eqb_neq in Heq.
        exists false. split; [reflexivity|].
        rewrite matches_from_cons.
        split; [discriminate|]. intros [[_ Hc] _].
        rewrite Hcell in Hc. injection Hc as Hc. contradiction.
    + exists false. split; [reflexivity|].
      rewrite matches_from_cons.
      split; [discriminate|]. intros [[Hin _] _].
      apply (in_bounds_rectangular g R C) in Hin; [|exact Hg]. congruence.
Qed.

Lemma find_word_in_direction_spec (g : Grid) (R C : Z) (word : string)
    (sr sc dr dc : Z) :
  rectangular g R C ->
  exists b, find_word_in_direction g word sr sc dr dc = Ok b
            /\ (b = true <-> matches_along g R C word sr sc dr dc).
Proof.
  intros Hg. apply find_word_from_spec. exact Hg.
Qed.

(* ================================================================== *)
(** ** Loops that stop at the first hit *)

Section ForBreak.
Context {A : Type}.
Variable body : A -> list Match -> result (list Match * bool).
Variable pick : A -> result (option Match).
Hypothesis body_pick :
  forall x s, body x s = (o <- pick x ;; Ok (record o s)).

Lemma for_break_first_some (xs : list A) : forall s,
  for_break body xs s = (o <- first_some pick xs ;; Ok (record o s)).
Proof.
  induction xs as [|x rest IH]; intros s; simpl.
  - reflexivity.
  - rewrite body_pick. destruct (pick x) as [[m|]|]; simpl.
    + reflexivity.
    + apply IH.
    + reflexivity.
Qed.
End ForBreak.

Section FirstSome.
Context {A B : Type}.
Variable pick : A -> result (option B).

Lemma first_some_Some (xs : list A) (b : B) :
  first_some pick xs = Ok (Some b) ->
  exists pre x post,
    xs = pre ++ x :: post /\ pick x = Ok (Some b)
    /\ forall y, In y pre -> pick y = Ok None.
Proof.
  induction xs as [|x rest IH]; simpl; [discriminate|].
  destruct (pick x) as [[b'|]|] eqn:E; simpl; [| |discriminate].
  - intros H. injection H as ->.
    exists [], x, rest. split; [reflexivity|]. split; [exact E|].
    intros y [].
  - intros H. destruct (IH H) as [pre [z [post [-> [Hz Hpre]]]]].
    exists (x :: pre), z, post. split; [reflexivity|].
    split; [exact Hz|]. intros y [<- | Hy]; auto.
Qed.

Lemma first_some_None (xs : list A) :
  first_some pick xs = Ok None ->
  forall x, In x xs -> pick x = Ok None.
Proof.
  induction xs as [|x rest IH]; simpl; [intros _ y []|].
  destruct (pick x) as [[b'|]|] eqn:E; simpl; try discriminate.
  intros H y [<- | Hy]; auto.
Qed.

Lemma first_some_total (xs : list A) :
  (forall x, In x xs -> exists o, pick x = Ok o) ->
  exists o, first_some pick xs = Ok o.
Proof.
  induction xs as [|x rest IH]; intros H; simpl.
  - exists None. reflexivity.
  - destruct (H x) as [[b|] E]; [left; reflexivity | |]; rewrite E; simpl.
    + exists (Some b). reflexivity.
    + apply IH. intros y Hy. apply H. right. exact Hy.
Qed.
End FirstSome.

(* ================================================================== *)
(** ** The searcher, loop by loop *)

Lemma direction_body_pick (g : Grid) (word : string) (r c : Z)
    (d : Direction) (s : list Match) :
  direction_body g word r c d s
  = (o <- pick_direction g word r c d ;; Ok (record o s)).
Proof.
  unfold direction_body, pick_direction.
  destruct d as [[dr dc] name]. unfold delta_row, delta_col, direction_name.
  simpl fst. simpl snd.
  destruct (find_word_in_direction g word r c dr dc) as [[|]|]; reflexivity.
Qed.

Lemma column_body_pick (g : Grid) (dirs : list Direction) (word : string)
    (r c : Z) (s : list Match) :
  column_body g dirs word r c s
  = (o <- pick_column g dirs word r c ;; Ok (record o s)).
Proof.
  unfold column_body, pick_column.
  apply for_break_first_some. intros d s'. apply direction_body_pick.
Qed.

Lemma row_body_pick (g : Grid) (dirs : list Direction) (word : string)
    (r : Z) (s : list Match) :
  row_body g dirs word r s
  = (o <- pick_row g dirs word r ;; Ok (record o s)).
Proof.
  unfold row_body, pick_row.
  destruct (py_index g 0) as [row0|]; simpl; [|reflexivity].
  apply for_break_first_some. intros c s'. apply column_body_pick.
Qed.

Lemma record_fst (o : option Match) (s : list Match) :
  fst (record o s) = s ++ olist o.
Proof. destruct o; simpl; [reflexivity | symmetry; apply app_nil_r]. Qed.

Lemma words_loop_collect (g : Grid) (dirs : list Direction)
    (words : list string) : forall s,
  words_loop g dirs words s = (ms <- collect g dirs words ;; Ok (s ++ ms)).
Proof.
  induction words as [|w rest IH]; intros s; simpl.
  - rewrite app_nil_r. reflexivity.
  - rewrite (for_break_first_some _ (pick_row g dirs w))
      by (intros; apply row_body_pick).
    fold (first_match g dirs w).
    destruct (first_match g dirs w) as [o|]; simpl; [|reflexivity].
    pose proof (record_fst o s) as Hfst.
    destruct (record o s) as [s' stop]. simpl in Hfst. subst s'.
    rewrite IH.
    destruct (collect g dirs rest) as [ms|]; simpl; [|reflexivity].
    rewrite app_assoc. reflexivity.
Qed.

Lemma search_for_words_collect (g : Grid) (words : list string) :
  search_for_words g words = collect g get_directions words.
Proof.
  unfold search_for_words. rewrite words_loop_collect.
  destruct (collect g get_directions words); reflexivity.
Qed.

Lemma collect_app (g : Grid) (dirs : list Direction)
    (ws1 ws2 : list string) :
  collect g dirs (ws1 ++ ws2)
  = app_result (collect g dirs ws1) (collect g dirs ws2).
Proof.
  unfold app_result. induction ws1 as [|w ws1 IH]; simpl.
  - destruct (collect g dirs ws2); reflexivity.
  - destruct (first_match g dirs w) as [o|]; simpl; [|reflexivity].
    rewrite IH.
    destruct (collect g dirs ws1) as [ms1|]; simpl; [|reflexivity].
    destruct (collect g dirs ws2) as [ms2|]; simpl; [|reflexivity].
    rewrite app_assoc. reflexivity.
Qed.

(* ================================================================== *)
(** ** The searcher on a rectangular grid *)

Lemma pick_direction_Some (g : Grid) (word : string) (r c : Z)
    (d : Direction) (m : Match) :
  pick_direction g word r c d = Ok (Some m) ->
  occurs g word r c d /\ m = (word, r + 1, c + 1, direction_name d).
Proof.
  unfold pick_direction, occurs.
  destruct (find_word_in_direction _ _ _ _ _ _) as [[|]|]; simpl;
    try discriminate.
  intros H. injection H as <-. auto.
Qed.

Lemma pick_direction_None (g : Grid) (word : string) (r c : Z)
    (d : Direction) :
  pick_direction g word r c d = Ok None ->
  find_word_in_direction g word r c (delta_row d) (delta_col d) = Ok false.
Proof.
  unfold pick_direction.
  destruct (find_word_in_direction _ _ _ _ _ _) as [[|]|]; simpl;
    try discriminate.
  reflexivity.
Qed.

Lemma pick_column_None (g : Grid) (dirs : list Direction) (word : string)
    (r c : Z) :
  pick_column g dirs word r c = Ok None ->
  forall d, In d dirs ->
    find_word_in_direction g word r c (delta_row d) (delta_col d) = Ok false.
Proof.
  intros H d Hd. apply pick_direction_None.
  apply (first_some_None _ _ H). exact Hd.
Qed.

Section Rectangular.
Variable g : Grid.
Variables R C : Z.
Hypothesis Hg : rectangular g R C.
Variable dirs : list Direction.
Variable word : string.

Lemma first_row : 1 <= R -> exists row0, py_index g 0 = Ok row0 /\ len row0 = C.
Proof.
  intros H1. destruct Hg as [HR HC]. destruct g as [|row0 g'].
  - unfold len in HR. simpl in HR. lia.
  - exists row0. split; [apply py_index_first|].
    inversion HC; assumption.
Qed.

Lemma pick_direction_total (r c : Z) (d : Direction) :
  exists o, pick_direction g word r c d = Ok o.
Proof.
  unfold pick_direction.
  destruct (find_word_in_direction_spec g R C word r c
              (delta_row d) (delta_col d) Hg) as [b [-> _]].
  simpl. eauto.
Qed.

Lemma pick_column_total (r c : Z) :
  exists o, pick_column g dirs word r c = Ok o.
Proof.
  apply first_some_total. intros d _. apply pick_direction_total.
Qed.

Lemma pick_row_total (r : Z) :
  0 <= r < R -> exists o, pick_row g dirs word r = Ok o.
Proof.
  intros Hr. unfold pick_row.
  destruct first_row as [row0 [-> _]]; [lia|]. simpl.
  apply first_some_total. intros c _. apply pick_column_total.
Qed.

Lemma first_match_total : exists o, first_match g dirs word = Ok o.
Proof.
  apply first_some_total. intros r Hr. apply pick_row_total.
  destruct Hg as [<- _]. apply in_range. exact Hr.
Qed.

Lemma pick_row_None (r : Z) :
  0 <= r < R ->
  pick_row g dirs word r = Ok None ->
  forall c d, 0 <= c < C -> In d dirs ->
    find_word_in_direction g word r c (delta_row d) (delta_col d)
    = Ok false.
Proof.
  intros Hr H c d Hc Hd. unfold pick_row in H.
  destruct first_row as [row0 [E Hlen]]; [lia|].
  rewrite E in H. simpl in H. rewrite Hlen in H.
  apply (pick_column_None g dirs word r c); [|exact Hd].
  apply (first_some_None _ _ H). apply in_range. exact Hc.
Qed.

Lemma first_match_None :
  first_match g dirs word = Ok None ->
  forall r c d, 0 <= r < R -> 0 <= c < C -> In d dirs ->
    find_word_in_direction g word r c (delta_row d) (delta_col d)
    = Ok false.
Proof.
  intros H r c d Hr Hc Hd. apply pick_row_None; try assumption.
  apply (first_some_None _ _ H). apply in_range.
  destruct Hg as [-> _]. exact Hr.
Qed.

(** The first match is an occurrence, and no occurrence comes before it
    in the order of the search. *)
Lemma first_match_Some (m : Match) :
  first_match g dirs word = Ok (Some m) ->
  exists r c k d,
    (0 <= r < R /\ 0 <= c < C) /\ nth_error dirs k = Some d
    /\ occurs g word r c d
    /\ m = (word, r + 1, c + 1, direction_name d)
    /\ forall r' c' k' d',
         0 <= r' < R -> 0 <= c' < C -> nth_error dirs k' = Some d' ->
         occurs g word r' c' d' -> search_le (r, c, k) (r', c', k').
Proof.
  intros H. unfold first_match in H.
  apply first_some_Some in H.
  destruct H as [rpre [r [rpost [Hrows [Hrow Hrpre]]]]].
  apply range_split in Hrows. destruct Hrows as [Hr ->].
  assert (HR : len g = R) by (destruct Hg; assumption).
  rewrite HR in Hr.
  pose proof Hrow as Hrow'. unfold pick_row in Hrow'.
  destruct first_row as [row0 [E Hlen]]; [lia|].
  rewrite E in Hrow'. simpl in Hrow'. rewrite Hlen in Hrow'.
  apply first_some_Some in Hrow'.
  destruct Hrow' as [cpre [c [cpost [Hcols [Hcol Hcpre]]]]].
  apply range_split in Hcols. destruct Hcols as [Hc ->].
  pose proof Hcol as Hcol'. unfold pick_column in Hcol'.
  apply first_some_Some in Hcol'.
  destruct Hcol' as [dpre [d [dpost [Hdirs [Hdir Hdpre]]]]].
  apply pick_direction_Some in Hdir. destruct Hdir as [Hocc Hm].
  exists r, c, (List.length dpre), d.
  split; [split; assumption|].
  split. { rewrite Hdirs, nth_error_app2, Nat.sub_diag by lia. reflexivity. }
  split; [exact Hocc|]. split; [exact Hm|].
  intros r' c' k' d' Hr' Hc' Hk' Hocc'. unfold occurs in Hocc'.
  assert (Hd' : In d' dirs) by (eapply nth_error_In; eassumption).
  unfold search_le.
  destruct (Z.lt_trichotomy r' r) as [Hlt | [-> | Hgt]]; [exfalso | | lia].
  { assert (Hnone : pick_row g dirs word r' = Ok None).
    { apply Hrpre. apply in_range. lia. }
    rewrite (pick_row_None r' Hr' Hnone c' d' Hc' Hd') in Hocc'.
    discriminate. }
  right. split; [reflexivity|].
  destruct (Z.lt_trichotomy c' c) as [Hlt | [-> | Hgt]]; [exfalso | | lia].
  { assert (Hnone : pick_column g dirs word r c' = Ok None).
    { apply Hcpre. apply in_range. lia. }
    rewrite (pick_column_None g dirs word r c' Hnone d' Hd') in Hocc'.
    discriminate. }
  right. split; [reflexivity|].
  destruct (Nat.lt_ge_cases k' (List.length dpre)) as [Hlt | Hge];
    [exfalso | exact Hge].
  rewrite Hdirs, nth_error_app1 in Hk' by exact Hlt.
  apply nth_error_In in Hk'. apply Hdpre in Hk'.
  apply pick_direction_None in Hk'. rewrite Hk' in Hocc'. discriminate.
Qed.

End Rectangular.

Lemma collect_total (g : Grid) (R C : Z) (dirs : list Direction)
    (words : list string) :
  rectangular g R C -> exists ms, collect g dirs words = Ok ms.
Proof.
  intros Hg. induction words as [|w rest [ms IH]]; simpl.
  - eauto.
  - destruct (first_match_total g R C Hg dirs w) as [o ->].
    rewrite IH. simpl. eauto.
Qed.

Lemma collect_Forall2 (g : Grid) (R C : Z) (dirs : list Direction)
    (words : list string) :
  rectangular g R C ->
  exists os : list (option Match),
    collect g dirs words = Ok (List.concat (map olist os))
    /\ Forall2 (fun w o => first_match g dirs w = Ok o) words os.
Proof.
  intros Hg. induction words as [|w rest [os [IH1 IH2]]]; simpl.
  - exists []. split; [reflexivity | constructor].
  - destruct (first_match_total g R C Hg dirs w) as [o Ho].
    exists (o :: os). rewrite Ho, IH1. simpl.
    split; [reflexivity | constructor; assumption].
Qed.

Lemma in_concat_olist {A B : Type} (P : A -> option B -> Prop)
    (xs : list A) (os : list (option B)) (b : B) :
  Forall2 P xs os -> In b (List.concat (map olist os)) ->
  exists x, In x xs /\ P x (Some b).
Proof.
  induction 1 as [|x o xs os HP _ IH]; simpl; [intros []|].
  intros Hin. apply in_app_or in Hin. destruct Hin as [Hin | Hin].
  - destruct o as [b'|]; simpl in Hin; [|contradiction].
    destruct Hin as [-> | []]. exists x. auto.
  - destruct (IH Hin) as [y [Hy HPy]]. exists y. auto.
Qed.

Lemma range_pos (n : Z) : 0 < n -> exists tl, range n = 0 :: tl.
Proof.
  intros Hn. unfold range.
  destruct (Z.to_nat n) as [|k] eqn:E; [lia|].
  simpl. eauto.
Qed.

(** An occurrence on a rectangular grid, letter by letter. *)
Lemma occurs_matches (g : Grid) (R C : Z) (word : string) (r c : Z)
    (d : Direction) :
  rectangular g R C ->
  occurs g word r c d <->
  matches_along g R C word r c (delta_row d) (delta_col d).
Proof.
  intros Hg. unfold occurs.
  destruct (find_word_in_direction_spec g R C word r c
              (delta_row d) (delta_col d) Hg) as [b [-> Hb]].
  rewrite <- Hb. split; [intros H; injection H; auto | intros ->; reflexivity].
Qed.

(* ================================================================== *)
(** ** Position validator: properties *)

(** C4. On a rectangular grid of [R >= 1] rows and [C >= 1] columns,
    [is_valid_position] returns true exactly when [0 <= row < R] and
    [0 <= col < C], whatever the integers [row] and [col]. *)
Theorem is_valid_position_iff (g : Grid) (R C row col : Z) :
  rectangular g R C -> 1 <= R -> 1 <= C ->
  exists b, is_valid_position g row col = Ok b
            /\ (b = true <-> 0 <= row < R /\ 0 <= col < C).
Proof.
  intros Hg _ _. exists (in_bounds g row col).
  split; [apply is_valid_position_in_bounds|].
  apply in_bounds_rectangular. exact Hg.
Qed.

Lemma grid_abcd_rectangular : rectangular grid_abcd 2 2.
Proof. split; [reflexivity | repeat constructor]. Qed.

Lemma is_valid_position_iff_witness :
  rectangular grid_abcd 2 2 /\ 1 <= 2 /\ 1 <= 2
  /\ exists b, is_valid_position grid_abcd 1 2 = Ok b
               /\ (b = true <-> 0 <= 1 < 2 /\ 0 <= 2 < 2).
Proof.
  split; [exact grid_abcd_rectangular|].
  split; [lia|]. split; [lia|].
  apply (is_valid_position_iff grid_abcd 2 2 1 2);
    [exact grid_abcd_rectangular | lia | lia].
Defined.

(** C6. [is_valid_position] is total: for every grid, the empty one and
    the ragged ones included, and all integers [row] and [col], it
    returns a boolean and raises nothing. *)
Theorem is_valid_position_total (g : Grid) (row col : Z) :
  exists b, is_valid_position g row col = Ok b.
Proof.
  exists (in_bounds g row col). apply is_valid_position_in_bounds.
Qed.

(* ================================================================== *)
(** ** Directional matcher: properties *)

(** C2. On a rectangular grid, for every word, start cell and direction
    [(dr, dc)], [find_word_in_direction] returns a boolean, which is true
    exactly when for every index [i] below the length of the word the
    position [(start_row + i*dr, start_col + i*dc)] is inside the grid
    and the cell there is the [i]-th letter of the word.  In particular
    a word whose path leaves the grid is rejected, in every direction. *)
Theorem find_word_in_direction_iff (g : Grid) (R C : Z) (word : string)
    (start_row start_col dr dc : Z) :
  rectangular g R C -> 1 <= R -> 1 <= C ->
  (1 <= String.length word)%nat ->
  exists b,
    find_word_in_direction g word start_row start_col dr dc = Ok b
    /\ (b = true <->
        forall i : nat, (i < String.length word)%nat ->
          (0 <= start_row + Z.of_nat i * dr < R
           /\ 0 <= start_col + Z.of_nat i * dc < C)
          /\ exists ch, String.get i word = Some ch
               /\ cell g (start_row + Z.of_nat i * dr)
                         (start_col + Z.of_nat i * dc) = Some (str ch))
    /\ ((exists i : nat, (i < String.length word)%nat
           /\ ~ (0 <= start_row + Z.of_nat i * dr < R
                 /\ 0 <= start_col + Z.of_nat i * dc < C))
        -> b = false).
Proof.
  intros Hg _ _ _.
  destruct (find_word_in_direction_spec g R C word start_row start_col
              dr dc Hg) as [b [Hfind Hiff]].
  exists b. split; [exact Hfind|].
  assert (Hiff' : b = true <->
        forall i : nat, (i < String.length word)%nat ->
          (0 <= start_row + Z.of_nat i * dr < R
           /\ 0 <= start_col + Z.of_nat i * dc < C)
          /\ exists ch, String.get i word = Some ch
               /\ cell g (start_row + Z.of_nat i * dr)
                         (start_col + Z.of_nat i * dc) = Some (str ch)).
  { rewrite Hiff. unfold matches_along, matches_from. simpl.
    split; intros H i Hi; specialize (H i Hi); exact H. }
  split; [exact Hiff'|].
  intros [i [Hi Hout]]. destruct b; [|reflexivity].
  exfalso. apply Hout. apply Hiff'; [reflexivity | exact Hi].
Qed.

Lemma find_word_in_direction_iff_witness :
  rectangular grid_abcd 2 2 /\ 1 <= 2 /\ 1 <= 2
  /\ (1 <= String.length "AB")%nat
  /\ exists b, find_word_in_direction grid_abcd "AB" 0 1 0 1 = Ok b
               /\ b = false.
Proof.
  split; [exact grid_abcd_rectangular|].
  split; [lia|]. split; [lia|]. split; [simpl; lia|].
  destruct (find_word_in_direction_iff grid_abcd 2 2 "AB" 0 1 0 1)
    as [b [Hb [_ Hout]]];
    [exact grid_abcd_rectangular | lia | lia | simpl; lia |].
  exists b. split; [exact Hb|]. apply Hout.
  exists 1%nat. split; [simpl; lia|]. simpl. lia.
Defined.

(* ================================================================== *)
(** ** Grid searcher: properties *)

Lemma search_one (g : Grid) (word : string) (o : option Match) :
  first_match g get_directions word = Ok o ->
  search_for_words g [word] = Ok (olist o).
Proof.
  intros H. rewrite search_for_words_collect. simpl. rewrite H. simpl.
  rewrite app_nil_r. reflexivity.
Qed.

(** C1. On a rectangular grid, when a word occurs at some start cell in
    some direction, the searcher reports for it exactly one match: the
    occurrence that comes first by row, then by column, then by the place
    of the direction in the table; and the matches of the other words of
    the list stand around it unchanged. *)
Theorem search_first_match_wins (g : Grid) (R C : Z) (word : string)
    (r c : Z) (k : nat) (d : Direction) (ws1 ws2 : list string) :
  rectangular g R C ->
  0 <= r < R -> 0 <= c < C -> nth_error get_directions k = Some d ->
  occurs g word r c d ->
  exists r0 c0 k0 d0 ms1 ms2,
    (0 <= r0 < R /\ 0 <= c0 < C)
    /\ nth_error get_directions k0 = Some d0
    /\ occurs g word r0 c0 d0
    /\ (forall r' c' k' d',
          0 <= r' < R -> 0 <= c' < C ->
          nth_error get_directions k' = Some d' ->
          occurs g word r' c' d' -> search_le (r0, c0, k0) (r', c', k'))
    /\ search_for_words g [word]
       = Ok [(word, r0 + 1, c0 + 1, direction_name d0)]
    /\ search_for_words g ws1 = Ok ms1
    /\ search_for_words g ws2 = Ok ms2
    /\ search_for_words g (ws1 ++ word :: ws2)
       = Ok (ms1 ++ (word, r0 + 1, c0 + 1, direction_name d0) :: ms2).
Proof.
  intros Hg Hr Hc Hk Hocc.
  destruct (first_match_total g R C Hg get_directions word) as [[m|] Hm].
  - destruct (first_match_Some g R C Hg get_directions word m Hm)
      as [r0 [c0 [k0 [d0 [Hin [Hk0 [Hocc0 [-> Hmin]]]]]]]].
    destruct (collect_total g R C get_directions ws1 Hg) as [ms1 H1].
    destruct (collect_total g R C get_directions ws2 Hg) as [ms2 H2].
    exists r0, c0, k0, d0, ms1, ms2.
    repeat (split; [assumption|]).
    split; [exact (search_one g word _ Hm)|].
    rewrite !search_for_words_collect.
    split; [exact H1|]. split; [exact H2|].
    rewrite collect_app, H1. simpl. rewrite Hm, H2. reflexivity.
  - exfalso. unfold occurs in Hocc.
    rewrite (first_match_None g R C Hg get_directions word Hm r c d)
      in Hocc; try assumption; [discriminate|].
    eapply nth_error_In; eassumption.
Qed.

Lemma search_first_match_wins_witness :
  rectangular grid_abaa 2 2 /\ 0 <= 1 < 2 /\ 0 <= 1 < 2
  /\ nth_error get_directions 7 = Some (-1, -1, "diagonal_up_left"%string)
  /\ occurs grid_abaa "AA" 1 1 (-1, -1, "diagonal_up_left"%string)
  /\ occurs grid_abaa "AA" 1 0 (0, 1, "horizontal_right"%string)
  /\ occurs grid_abaa "AA" 0 0 (1, 1, "diagonal_down_right"%string)
  /\ occurs grid_abaa "AA" 0 0 (1, 0, "vertical_down"%string)
  /\ search_for_words grid_abaa ["AA"%string]
     = Ok [("AA"%string, 1, 1, "vertical_down"%string)]
  /\ search_for_words grid_abaa ["X"; "AA"; "BA"]%string
     = Ok [("AA"%string, 1, 1, "vertical_down"%string);
           ("BA"%string, 1, 2, "horizontal_left"%string)].
Proof.
  assert (Hg : rectangular grid_abaa 2 2)
    by (split; [reflexivity | repeat constructor]).
  assert (Hocc : occurs grid_abaa "AA" 1 1 (-1, -1, "diagonal_up_left"%string))
    by reflexivity.
  assert (Hvd : occurs grid_abaa "AA" 0 0 (1, 0, "vertical_down"%string))
    by reflexivity.
  split; [exact Hg|].
  split; [lia|]. split; [lia|]. split; [reflexivity|].
  split; [exact Hocc|]. split; [reflexivity|]. split; [reflexivity|].
  split; [exact Hvd|].
  destruct (search_first_match_wins grid_abaa 2 2 "AA" 1 1 7
              (-1, -1, "diagonal_up_left"%string)
              ["X"%string] ["BA"%string] Hg)
    as [r0 [c0 [k0 [d0 [ms1 [ms2
         [[Hr0 Hc0] [Hk0 [Hocc0 [Hmin [Hs [H1 [H2 Hall]]]]]]]]]]]]];
    [lia | lia | reflexivity | exact Hocc |].
  (* the first occurrence is no later than the one at the first cell,
     downwards: it is at row 0, column 0, in one of the first three
     directions, and the first two do not match there *)
  assert (Hle : search_le (r0, c0, k0) (0, 0, 2%nat)).
  { apply (Hmin 0 0 2%nat (1, 0, "vertical_down"%string));
      [lia | lia | reflexivity | exact Hvd]. }
  unfold search_le in Hle.
  assert (Er : r0 = 0) by lia. assert (Ec : c0 = 0) by lia.
  assert (Ek : (k0 <= 2)%nat) by lia.
  subst r0 c0.
  assert (Ed : d0 = (1, 0, "vertical_down"%string)).
  { destruct k0 as [|[|[|k0]]]; [exfalso | exfalso | | exfalso; lia];
      simpl in Hk0; injection Hk0 as <-;
      [discriminate Hocc0 | discriminate Hocc0 | reflexivity]. }
  subst d0.
  assert (E1 : ms1 = []).
  { assert (E : search_for_words grid_abaa ["X"%string] = Ok [])
      by reflexivity.
    rewrite E in H1. injection H1 as <-. reflexivity. }
  assert (E2 : ms2 = [("BA"%string, 1, 2, "horizontal_left"%string)]).
  { assert (E : search_for_words grid_abaa ["BA"%string]
                = Ok [("BA"%string, 1, 2, "horizontal_left"%string)])
      by reflexivity.
    rewrite E in H2. injection H2 as <-. reflexivity. }
  subst ms1 ms2.
  split; [exact Hs | exact Hall].
Defined.

Lemma first_match_sound (g : Grid) (R C : Z) (word : string)
    (o : option Match) :
  rectangular g R C ->
  first_match g get_directions word = Ok o ->
  match o with
  | Some m => reports g R C word m
  | None => found_nowhere g R C word
  end.
Proof.
  intros Hg H. destruct o as [m|].
  - destruct (first_match_Some g R C Hg get_directions word m H)
      as [r [c [k [d [Hin [Hk [Hocc [-> _]]]]]]]].
    exists r, c, d. split; [exact Hin|].
    split; [eapply nth_error_In; eassumption|]. auto.
  - intros r c d Hr Hc Hd.
    apply (first_match_None g R C Hg get_directions word H); assumption.
Qed.

(** C3. On a rectangular grid the searcher returns the matches in the
    order of the words: the result is the concatenation, word after
    word, of at most one match per word; the match of a word reports an
    occurrence of that word, and a word contributes nothing exactly when
    the matcher rejects it everywhere. *)
Theorem search_for_words_in_word_order (g : Grid) (R C : Z)
    (words : list string) :
  rectangular g R C -> 1 <= R -> 1 <= C ->
  exists os : list (option Match),
    search_for_words g words = Ok (List.concat (map olist os))
    /\ Forall2 (fun w o =>
                  match o with
                  | Some m => match_word m = w /\ reports g R C w m
                  | None => found_nowhere g R C w
                  end) words os
    /\ forall w, found_nowhere g R C w ->
         forall m, In m (List.concat (map olist os)) -> match_word m <> w.
Proof.
  intros Hg _ _.
  destruct (collect_Forall2 g R C get_directions words Hg) as [os [H1 H2]].
  exists os. rewrite search_for_words_collect. split; [exact H1|].
  assert (H3 : Forall2 (fun w o =>
                  match o with
                  | Some m => match_word m = w /\ reports g R C w m
                  | None => found_nowhere g R C w
                  end) words os).
  { eapply Forall2_impl; [|exact H2].
    intros w o Ho. apply (first_match_sound g R C w o Hg) in Ho.
    destruct o as [m|]; [|exact Ho]. split; [|exact Ho].
    destruct Ho as [r [c [d [_ [_ [_ ->]]]]]]. reflexivity. }
  split; [exact H3|].
  intros w Hnone m Hm Heq.
  destruct (in_concat_olist _ _ _ m H3 Hm) as [w' [_ [Hw' Hrep]]].
  rewrite Heq in Hw'. subst w'.
  destruct Hrep as [r [c [d [[Hr Hc] [Hd [Hocc _]]]]]].
  unfold occurs in Hocc. rewrite (Hnone r c d Hr Hc Hd) in Hocc.
  discriminate Hocc.
Qed.

Lemma search_for_words_in_word_order_witness :
  rectangular grid_abcd 2 2 /\ 1 <= 2 /\ 1 <= 2
  /\ exists os : list (option Match),
       search_for_words grid_abcd ["DB"; "X"; "AC"]%string
       = Ok (List.concat (map olist os))
       /\ Forall2 (fun w o =>
                     match o with
                     | Some m => match_word m = w
                                 /\ reports grid_abcd 2 2 w m
                     | None => found_nowhere grid_abcd 2 2 w
                     end) ["DB"; "X"; "AC"]%string os
       /\ forall w, found_nowhere grid_abcd 2 2 w ->
            forall m, In m (List.concat (map olist os)) -> match_word m <> w.
Proof.
  split; [exact grid_abcd_rectangular|]. split; [lia|]. split; [lia|].
  apply (search_for_words_in_word_order grid_abcd 2 2);
    [exact grid_abcd_rectangular | lia | lia].
Defined.

Lemma string_get_lt (s : string) : forall (i : nat) (ch : ascii),
  String.get i s = Some ch -> (i < String.length s)%nat.
Proof.
  induction s as [|a s IH]; intros i ch H; simpl in *; [discriminate|].
  destruct i as [|i]; [lia|]. apply IH in H. lia.
Qed.

Lemma cell_In (g : Grid) (row col : Z) (x : string) :
  cell g row col = Some x -> exists r, In r g /\ In x r.
Proof.
  unfold cell. destruct (nth_error g (Z.to_nat row)) as [r|] eqn:E;
    [|discriminate].
  intros H. exists r. split; eapply nth_error_In; eassumption.
Qed.

(** A word that occurs along one of the eight directions is no longer
    than the grid is high or wide. *)
Lemma occurs_length (g : Grid) (R C : Z) (word : string) (r c : Z)
    (d : Direction) :
  rectangular g R C -> In d get_directions -> occurs g word r c d ->
  Z.of_nat (String.length word) <= Z.max R C.
Proof.
  intros Hg Hd Hocc.
  assert (HR : 0 <= R) by (destruct Hg as [<- _]; apply len_nonneg).
  apply (occurs_matches g R C) in Hocc; [|exact Hg].
  destruct (String.length word) as [|n] eqn:EL; [lia|].
  unfold matches_along, matches_from in Hocc. rewrite EL in Hocc.
  destruct (Hocc 0%nat) as [H0 _]; [lia|].
  destruct (Hocc n) as [Hn _]; [lia|].
  simpl in Hd.
  repeat (destruct Hd as [<- | Hd];
          [unfold delta_row, delta_col in *; simpl in *; lia|]).
  contradiction.
Qed.

(** On a rectangular grid, the grid without rows included, the searcher
    raises nothing; on the grid without rows it returns no match; and it
    returns no match for a word longer than the grid is high and wide,
    nor for a word with a letter that is in no cell. *)
Lemma not_found_rectangular (g : Grid) (R C : Z)
    (words : list string) :
  rectangular g R C ->
  exists ms,
    search_for_words g words = Ok ms
    /\ (g = [] -> ms = [])
    /\ forall w,
         (Z.max R C < Z.of_nat (String.length w)
          \/ exists i ch, String.get i w = Some ch
               /\ forall row, In row g -> ~ In (str ch) row) ->
         forall m, In m ms -> match_word m <> w.
Proof.
  intros Hg.
  destruct (collect_Forall2 g R C get_directions words Hg) as [os [H1 H2]].
  exists (List.concat (map olist os)).
  rewrite search_for_words_collect. split; [exact H1|].
  assert (Hrep : forall m, In m (List.concat (map olist os)) ->
                 reports g R C (match_word m) m).
  { intros m Hm.
    destruct (in_concat_olist _ _ _ m H2 Hm) as [w [_ Hw]].
    apply (first_match_sound g R C w _ Hg) in Hw.
    destruct Hw as [r [c [d [Hin [Hd [Hocc ->]]]]]].
    exists r, c, d. auto. }
  split.
  - intros ->. destruct (List.concat (map olist os)) as [|m ms];
      [reflexivity|].
    destruct (Hrep m) as [r [c [d [[Hr _] _]]]]; [left; reflexivity|].
    destruct Hg as [HR _]. unfold len in HR. simpl in HR. lia.
  - intros w Hw m Hm Heq.
    destruct (Hrep m Hm) as [r [c [d [Hin [Hd [Hocc _]]]]]].
    rewrite Heq in Hocc. destruct Hw as [Hlong | [i [ch [Hget Habs]]]].
    + pose proof (occurs_length g R C w r c d Hg Hd Hocc). lia.
    + apply (occurs_matches g R C) in Hocc; [|exact Hg].
      destruct (Hocc i) as [_ [ch' [Hget' Hcell]]].
      { eapply string_get_lt; eassumption. }
      rewrite Hget in Hget'. injection Hget' as <-.
      apply cell_In in Hcell. destruct Hcell as [row [Hrow Hx]].
      apply (Habs row Hrow Hx).
Qed.

(** A word of one letter is found at a cell that holds it, whatever the
    direction. *)
Lemma single_letter_occurs (g : Grid) (R C : Z) (ch : ascii) (r c : Z) :
  rectangular g R C -> 0 <= r < R -> 0 <= c < C ->
  cell g r c = Some (str ch) ->
  forall dr dc, find_word_in_direction g (str ch) r c dr dc = Ok true.
Proof.
  intros Hg Hr Hc Hcell dr dc.
  destruct (find_word_in_direction_spec g R C (str ch) r c dr dc Hg)
    as [b [-> Hb]].
  f_equal. apply Hb. intros k Hk. simpl in Hk.
  assert (k = 0%nat) by lia. subst k. simpl.
  rewrite !Z.add_0_r.
  split; [split; assumption|]. exists ch. auto.
Qed.

(** C7. On a rectangular grid a word of one letter is found at every
    cell that holds this letter, in every direction; the match the
    searcher reports for such a word carries the first direction of the
    table, [horizontal_right]; and for the grid of rows [A B] and [C D]
    and the word [A] the result is the one match
    [("A", 1, 1, "horizontal_right")]. *)
Theorem single_letter_word (g : Grid) (R C : Z) (ch : ascii) :
  rectangular g R C -> 1 <= R -> 1 <= C ->
  (forall r c dr dc,
     0 <= r < R -> 0 <= c < C -> cell g r c = Some (str ch) ->
     find_word_in_direction g (str ch) r c dr dc = Ok true)
  /\ (forall words ms m,
        search_for_words g words = Ok ms -> In m ms ->
        match_word m = str ch ->
        match_direction m = "horizontal_right"%string)
  /\ search_for_words grid_abcd ["A"%string]
     = Ok [("A"%string, 1, 1, "horizontal_right"%string)].
Proof.
  intros Hg _ _. split; [|split; [|reflexivity]].
  - intros r c dr dc Hr Hc Hcell.
    apply (single_letter_occurs g R C); assumption.
  - intros words ms m Hs Hm Hword.
    rewrite search_for_words_collect in Hs.
    destruct (collect_Forall2 g R C get_directions words Hg)
      as [os [H1 H2]].
    rewrite H1 in Hs. injection Hs as <-.
    destruct (in_concat_olist _ _ _ m H2 Hm) as [w [_ Hw]].
    destruct (first_match_Some g R C Hg get_directions w m Hw)
      as [r [c [k [d [[Hr Hc] [Hk [Hocc [-> Hmin]]]]]]]].
    unfold match_word in Hword. simpl in Hword. subst w.
    pose proof Hocc as Hmatch.
    apply (occurs_matches g R C) in Hmatch; [|exact Hg].
    destruct (Hmatch 0%nat) as [_ [ch' [Hget Hcell]]]; [simpl; lia|].
    simpl in Hget. injection Hget as <-. simpl in Hcell.
    rewrite !Z.add_0_r in Hcell.
    assert (H0 : search_le (r, c, k) (r, c, 0%nat)).
    { apply (Hmin r c 0%nat (0, 1, "horizontal_right"%string));
        [exact Hr | exact Hc | reflexivity |].
      unfold occurs.
      apply (single_letter_occurs g R C); assumption. }
    unfold search_le in H0.
    assert (k = 0%nat) by lia. subst k.
    simpl in Hk. injection Hk as <-. reflexivity.
Qed.

Lemma single_letter_word_witness :
  rectangular grid_abcd 2 2 /\ 1 <= 2 /\ 1 <= 2
  /\ find_word_in_direction grid_abcd (str "D") 1 1 (-1) 1 = Ok true
  /\ forall m,
       In m [("D"%string, 2, 2, "horizontal_right"%string)] ->
       match_direction m = "horizontal_right"%string.
Proof.
  split; [exact grid_abcd_rectangular|]. split; [lia|]. split; [lia|].
  destruct (single_letter_word grid_abcd 2 2 "D" grid_abcd_rectangular)
    as [Hfind [Hdir _]]; [lia | lia |].
  split.
  - apply Hfind; [lia | lia | reflexivity].
  - intros m Hm.
    apply (Hdir ["D"%string] [("D"%string, 2, 2, "horizontal_right"%string)]);
      [reflexivity | exact Hm |].
    destruct Hm as [<- | []]. reflexivity.
Defined.

(** C9. The words are searched independently: for every grid, the result
    for two lists of words put end to end is the result for the first
    followed by the result for the second, an [IndexError] of either
    being the [IndexError] of the whole; so the matches of a word are
    those of the search for this word alone, whatever stands before or
    after it. *)
Theorem search_for_words_app (g : Grid) (ws1 ws2 : list string) :
  search_for_words g (ws1 ++ ws2)
  = app_result (search_for_words g ws1) (search_for_words g ws2)
  /\ forall w,
       search_for_words g (ws1 ++ w :: ws2)
       = app_result (search_for_words g ws1)
           (app_result (search_for_words g [w]) (search_for_words g ws2)).
Proof.
  rewrite !search_for_words_collect. split; [apply collect_app|].
  intros w. rewrite !search_for_words_collect.
  rewrite collect_app. f_equal.
  apply (collect_app g get_directions [w] ws2).
Qed.

(** C10. For the empty word the matcher returns true for every grid,
    every start position, inside the grid or not, and every direction;
    and on a grid whose first row has a cell the searcher reports the
    empty word at row 1, column 1, direction [horizontal_right]. *)
Theorem empty_word_found :
  (forall (g : Grid) (start_row start_col dr dc : Z),
     find_word_in_direction g EmptyString start_row start_col dr dc
     = Ok true)
  /\ (forall (cell0 : string) (row0 : list string) (rows : Grid),
        search_for_words ((cell0 :: row0) :: rows) [EmptyString]
        = Ok [(EmptyString, 1, 1, "horizontal_right"%string)]).
Proof.
  split; [reflexivity|].
  intros cell0 row0 rows.
  apply (search_one _ _ (Some (EmptyString, 1, 1, "horizontal_right"%string))).
  unfold first_match.
  destruct (range_pos (len ((cell0 :: row0) :: rows))) as [tl ->].
  { rewrite len_cons. pose proof (len_nonneg rows). lia. }
  simpl. unfold pick_row. rewrite py_index_first. simpl.
  destruct (range_pos (len (cell0 :: row0))) as [tl' ->].
  { rewrite len_cons. pose proof (len_nonneg row0). lia. }
  reflexivity.
Qed.

(* ================================================================== *)
(** ** Loaders: properties *)

Lemma load_grid_lines_blank (blank : string) (ls2 : list string) :
  strip blank = EmptyString ->
  forall (ls1 : list string) (grid : Grid),
    load_grid_lines (ls1 ++ blank :: ls2) grid
    = load_grid_lines (ls1 ++ ls2) grid.
Proof.
  intros Hb ls1. induction ls1 as [|l ls1 IH]; intros grid; simpl.
  - rewrite Hb. reflexivity.
  - destruct (nonempty (strip l)); apply IH.
Qed.

Lemma load_words_lines_blank (blank : string) (ls2 : list string) :
  strip blank = EmptyString ->
  forall (ls1 : list string) (words : list string),
    load_words_lines (ls1 ++ blank :: ls2) words
    = load_words_lines (ls1 ++ ls2) words.
Proof.
  intros Hb ls1. induction ls1 as [|l ls1 IH]; intros words; simpl.
  - rewrite Hb. reflexivity.
  - destruct (nonempty (upper (strip l))); apply IH.
Qed.

Lemma upper_char_idempotent (c : ascii) :
  upper_char (upper_char c) = upper_char c.
Proof. destruct c as [[] [] [] [] [] [] [] []]; reflexivity. Qed.

Lemma upper_idempotent (s : string) : upper (upper s) = upper s.
Proof.
  induction s as [|c s IH]; simpl; [reflexivity|].
  rewrite upper_char_idempotent, IH. reflexivity.
Qed.

Lemma load_words_lines_upper (ls : list string) :
  forall (words : list string) (w : string),
    In w (load_words_lines ls words) ->
    In w words
    \/ exists line, In line ls /\ w = upper (strip line) /\ nonempty w = true.
Proof.
  induction ls as [|l ls IH]; intros words w H; simpl in H; [auto|].
  destruct (nonempty (upper (strip l))) eqn:E; apply IH in H.
  - destruct H as [H | [line [H1 H2]]].
    + apply in_app_or in H. destruct H as [H | [<- | []]]; [auto|].
      right. exists l. split; [left; reflexivity | auto].
    + right. exists line. split; [right; exact H1 | exact H2].
  - destruct H as [H | [line [H1 H2]]]; [auto|].
    right. exists line. split; [right; exact H1 | exact H2].
Qed.

(** C8. The grid file of rows [W I S D O M], [B C I A K D] and
    [S H A I M E] loads as a grid of 3 rows and 6 columns, the word file
    [WISDOM] as the list of this one word, and the searcher finds it at
    row 1, column 1 (counted from 1), direction [horizontal_right].
    Both loaders skip a line that is blank once stripped, and every word
    loaded is the uppercase of a stripped line, not empty. *)
Theorem wisdom_round_trip :
  load_grid grid_file = grid_wisdom
  /\ nrows (load_grid grid_file) = 3
  /\ ncols (load_grid grid_file) = 6
  /\ rectangular (load_grid grid_file) 3 6
  /\ load_words words_file = ["WISDOM"%string]
  /\ search_for_words (load_grid grid_file) (load_words words_file)
     = Ok [("WISDOM"%string, 1, 1, "horizontal_right"%string)]
  /\ (forall blank ls1 ls2 grid,
        strip blank = EmptyString ->
        load_grid_lines (ls1 ++ blank :: ls2) grid
        = load_grid_lines (ls1 ++ ls2) grid)
  /\ (forall blank ls1 ls2 words,
        strip blank = EmptyString ->
        load_words_lines (ls1 ++ blank :: ls2) words
        = load_words_lines (ls1 ++ ls2) words)
  /\ (forall file w,
        In w (load_words file) ->
        upper w = w
        /\ exists line, In line (lines file) /\ w = upper (strip line)).
Proof.
  assert (Hload : load_grid grid_file = grid_wisdom)
    by (vm_compute; reflexivity).
  split; [exact Hload|]. rewrite Hload.
  split; [reflexivity|]. split; [reflexivity|].
  split; [split; [reflexivity | repeat constructor]|].
  split; [vm_compute; reflexivity|].
  split; [vm_compute; reflexivity|].
  split; [intros; apply load_grid_lines_blank; assumption|].
  split; [intros; apply load_words_lines_blank; assumption|].
  intros file w Hw. unfold load_words in Hw.
  apply load_words_lines_upper in Hw.
  destruct Hw as [[] | [line [Hline [-> _]]]].
  split; [apply upper_idempotent | eauto].
Qed.

Lemma wisdom_round_trip_witness :
  strip (" " ++ line_feed) = EmptyString
  /\ load_grid_lines
       (["W I S D O M"; " " ++ line_feed; "B C I A K D"])%string []
     = load_grid_lines (["W I S D O M"; "B C I A K D"])%string []
  /\ load_words_lines (["wisdom"; " " ++ line_feed])%string []
     = load_words_lines (["wisdom"])%string []
  /\ In "WISDOM"%string (load_words "wisdom")
  /\ upper "WISDOM" = "WISDOM"%string.
Proof.
  destruct wisdom_round_trip as [_ [_ [_ [_ [_ [_ [Hg [Hw Hup]]]]]]]].
  split; [reflexivity|].
  split; [apply (Hg _ ["W I S D O M"%string] ["B C I A K D"%string]);
          reflexivity|].
  split; [apply (Hw _ ["wisdom"%string] []); reflexivity|].
  assert (Hin : In "WISDOM"%string (load_words "wisdom"))
    by (left; reflexivity).
  split; [exact Hin|].
  apply (Hup "wisdom"%string "WISDOM"%string Hin).
Defined.


(* ================================================================== *)
(** ** Direction table: further properties *)

(** X1. The table holds each of the eight steps to a neighbouring cell
    once: every [(dr, dc)] with both deltas among -1, 0, 1 and not both 0
    is the step of an entry, of one entry only; every entry is such a
    step; and the eight names differ. *)
Theorem get_directions_eight_neighbours (dr dc : Z) :
  -1 <= dr <= 1 -> -1 <= dc <= 1 -> (dr, dc) <> (0, 0) ->
  (exists k name,
     nth_error get_directions k = Some (dr, dc, name)
     /\ forall k' name',
          nth_error get_directions k' = Some (dr, dc, name') -> k' = k)
  /\ (forall d, In d get_directions ->
        (-1 <= delta_row d <= 1 /\ -1 <= delta_col d <= 1)
        /\ (delta_row d, delta_col d) <> (0, 0))
  /\ NoDup (map direction_name get_directions).
Proof.
  intros Hr Hc Hne. split; [|split].
  - assert (Er : dr = -1 \/ dr = 0 \/ dr = 1) by lia.
    assert (Ec : dc = -1 \/ dc = 0 \/ dc = 1) by lia.
    destruct Er as [-> | [-> | ->]]; destruct Ec as [-> | [-> | ->]];
      try (exfalso; apply Hne; reflexivity);
      [ exists 7%nat | exists 3%nat | exists 6%nat | exists 1%nat
      | exists 0%nat | exists 5%nat | exists 2%nat | exists 4%nat ];
      (eexists; split; [reflexivity|]);
      intros k' name' H;
      do 9 (destruct k' as [|k']; simpl in H;
            [try reflexivity; try discriminate H|]);
      discriminate H.
  - intros d Hd. simpl in Hd.
    repeat (destruct Hd as [<- | Hd];
            [unfold delta_row, delta_col; simpl;
             split; [lia | discriminate]|]).
    contradiction.
  - simpl. repeat (constructor; [simpl; intuition discriminate|]).
    constructor.
Qed.

Lemma get_directions_eight_neighbours_witness :
  -1 <= -1 <= 1 /\ -1 <= 1 <= 1 /\ (-1, 1) <> (0, 0)
  /\ exists k name, nth_error get_directions k = Some (-1, 1, name).
Proof.
  split; [lia|]. split; [lia|]. split; [discriminate|].
  destruct (get_directions_eight_neighbours (-1) 1)
    as [[k [name [H _]]] _]; [lia | lia | discriminate |].
  exists k, name. exact H.
Defined.

(* ================================================================== *)
(** ** Grids with rows of different lengths *)

Lemma wide_enough_cell (g : Grid) (row col : Z) :
  wide_enough g ->
  0 <= row < nrows g -> 0 <= col < ncols g ->
  exists r x, py_index g row = Ok r /\ py_index r col = Ok x
              /\ nth_error g (Z.to_nat row) = Some r
              /\ nth_error r (Z.to_nat col) = Some x
              /\ ncols g <= len r.
Proof.
  intros Hw Hrow Hcol. unfold nrows in Hrow.
  destruct (py_index_inside g row Hrow) as [r [Hr Hnth]].
  assert (Hlen : ncols g <= len r).
  { unfold wide_enough in Hw. rewrite Forall_forall in Hw. apply Hw.
    eapply nth_error_In. exact Hnth. }
  destruct (py_index_inside r col) as [x [Hx Hnth']]; [lia|].
  exists r, x. auto.
Qed.

Lemma in_bounds_true (g : Grid) (row col : Z) :
  in_bounds g row col = true <->
  (0 <= row < nrows g /\ 0 <= col < ncols g).
Proof.
  unfold in_bounds. rewrite !andb_true_iff, !Z.leb_le, !Z.ltb_lt. tauto.
Qed.

(** X2. The bounds check guards the subscripts: when no row is shorter
    than the first one and [is_valid_position] answers true, reading
    [grid[row][col]] raises nothing and reads the cell of that row and
    column, counted from 0. *)
Theorem is_valid_position_guards_subscript (g : Grid) (row col : Z) :
  wide_enough g ->
  is_valid_position g row col = Ok true ->
  exists r x,
    py_index g row = Ok r /\ py_index r col = Ok x
    /\ cell g row col = Some x.
Proof.
  intros Hw Hv. rewrite is_valid_position_in_bounds in Hv.
  injection Hv as Hv. apply in_bounds_true in Hv. destruct Hv as [Hr Hc].
  destruct (wide_enough_cell g row col Hw Hr Hc)
    as [r [x [H1 [H2 [H3 [H4 _]]]]]].
  exists r, x. unfold cell. rewrite H3. auto.
Qed.

Lemma grid_abcd_wide_enough : wide_enough grid_abcd.
Proof. unfold wide_enough. repeat constructor; simpl; unfold len; simpl; lia. Qed.

Lemma is_valid_position_guards_subscript_witness :
  wide_enough grid_abcd
  /\ is_valid_position grid_abcd 1 0 = Ok true
  /\ exists r x,
       py_index grid_abcd 1 = Ok r /\ py_index r 0 = Ok x
       /\ cell grid_abcd 1 0 = Some x.
Proof.
  split; [exact grid_abcd_wide_enough|]. split; [reflexivity|].
  apply (is_valid_position_guards_subscript grid_abcd 1 0);
    [exact grid_abcd_wide_enough | reflexivity].
Defined.

Lemma truncate_cons (row0 : list string) (g : Grid) :
  truncate (row0 :: g)
  = row0 :: map (firstn (Z.to_nat (len row0))) g.
Proof.
  unfold truncate. simpl. f_equal. apply firstn_all2.
  unfold len. lia.
Qed.

Lemma len_truncate (g : Grid) : len (truncate g) = len g.
Proof. unfold truncate, len. rewrite length_map. reflexivity. Qed.

Lemma ncols_truncate (g : Grid) : ncols (truncate g) = ncols g.
Proof.
  destruct g as [|row0 g]; [reflexivity|]. rewrite truncate_cons.
  reflexivity.
Qed.

Lemma py_index_truncate_first (g : Grid) :
  py_index (truncate g) 0 = py_index g 0.
Proof.
  destruct g as [|row0 g]; [reflexivity|]. rewrite truncate_cons.
  rewrite !py_index_first. reflexivity.
Qed.

Lemma truncate_rectangular (g : Grid) :
  wide_enough g -> rectangular (truncate g) (len g) (ncols g).
Proof.
  intros Hw. split; [apply len_truncate|].
  unfold truncate. apply Forall_map.
  unfold wide_enough in Hw.
  eapply Forall_impl; [|exact Hw]. intros row Hrow. simpl in Hrow.
  unfold len in *. rewrite length_firstn.
  pose proof (len_nonneg (A := list string) g).
  assert (0 <= ncols g).
  { destruct g as [|row0 g']; simpl; [lia | apply len_nonneg]. }
  lia.
Qed.

Lemma find_word_from_truncate (g : Grid) (sr sc dr dc : Z) :
  wide_enough g ->
  forall (chars : string) (i : Z),
    find_word_from (truncate g) chars i sr sc dr dc
    = find_word_from g chars i sr sc dr dc.
Proof.
  intros Hw chars. induction chars as [|ch rest IH]; intros i;
    [reflexivity|].
  simpl find_word_from. rewrite !is_valid_position_in_bounds.
  assert (Hb : in_bounds (truncate g) (sr + i * dr) (sc + i * dc)
               = in_bounds g (sr + i * dr) (sc + i * dc)).
  { unfold in_bounds, nrows. rewrite len_truncate, ncols_truncate.
    reflexivity. }
  rewrite Hb. simpl bind.
  destruct (in_bounds g (sr + i * dr) (sc + i * dc)) eqn:E; simpl negb;
    [|reflexivity].
  apply in_bounds_true in E. destruct E as [Hrow Hcol].
  destruct (wide_enough_cell g _ _ Hw Hrow Hcol)
    as [r [x [H1 [H2 [H3 [H4 Hlen]]]]]].
  rewrite H1. simpl bind. rewrite H2. simpl bind.
  destruct (py_index_inside (truncate g) (sr + i * dr)) as [r' [H1' H3']].
  { rewrite len_truncate. exact Hrow. }
  unfold truncate in H3'. rewrite nth_error_map, H3 in H3'.
  simpl in H3'. injection H3' as <-.
  rewrite H1'. simpl bind.
  destruct (py_index_inside (firstn (Z.to_nat (ncols g)) r) (sc + i * dc))
    as [x' [H2' H4']].
  { unfold len in *. rewrite length_firstn. lia. }
  rewrite nth_error_firstn in H4'.
  destruct (Nat.ltb_spec (Z.to_nat (sc + i * dc)) (Z.to_nat (ncols g)));
    [|lia].
  rewrite H4 in H4'. injection H4' as <-.
  rewrite H2'. simpl bind.
  destruct (negb (String.eqb x (String ch EmptyString))); [reflexivity|].
  apply IH.
Qed.

Lemma first_some_ext {A B : Type} (pick pick' : A -> result (option B))
    (xs : list A) :
  (forall x, In x xs -> pick x = pick' x) ->
  first_some pick xs = first_some pick' xs.
Proof.
  induction xs as [|x rest IH]; intros H; simpl; [reflexivity|].
  rewrite <- (H x) by (left; reflexivity).
  destruct (pick x) as [[b|]|]; simpl; try reflexivity.
  apply IH. intros y Hy. apply H. right. exact Hy.
Qed.

Lemma first_match_truncate (g : Grid) (dirs : list Direction)
    (word : string) :
  wide_enough g ->
  first_match (truncate g) dirs word = first_match g dirs word.
Proof.
  intros Hw. unfold first_match. rewrite len_truncate.
  apply first_some_ext. intros r _. unfold pick_row.
  rewrite py_index_truncate_first.
  destruct (py_index g 0) as [row0|]; simpl; [|reflexivity].
  apply first_some_ext. intros c _. unfold pick_column.
  apply first_some_ext. intros d _. unfold pick_direction.
  unfold find_word_in_direction.
  rewrite find_word_from_truncate by exact Hw. reflexivity.
Qed.

Lemma collect_truncate (g : Grid) (dirs : list Direction)
    (words : list string) :
  wide_enough g ->
  collect (truncate g) dirs words = collect g dirs words.
Proof.
  intros Hw. induction words as [|w rest IH]; simpl; [reflexivity|].
  rewrite first_match_truncate by exact Hw. rewrite IH. reflexivity.
Qed.

Lemma rectangular_wide_enough (g : Grid) (R C : Z) :
  rectangular g R C -> wide_enough g.
Proof.
  intros [_ HC]. unfold wide_enough.
  destruct g as [|row0 g']; [constructor|].
  inversion HC as [|? ? H0 Hrest]; subst. simpl ncols.
  constructor; [lia|].
  eapply Forall_impl; [|exact Hrest]. intros row Hrow. simpl in Hrow. lia.
Qed.

Lemma in_truncate (g : Grid) (row' : list string) (x : string) :
  In row' (truncate g) -> In x row' -> exists row, In row g /\ In x row.
Proof.
  unfold truncate. intros Hrow Hx. apply in_map_iff in Hrow.
  destruct Hrow as [row [<- Hrow]]. exists row. split; [exact Hrow|].
  rewrite <- (firstn_skipn (Z.to_nat (ncols g)) row).
  apply in_or_app. left. exact Hx.
Qed.

(** C5. On every grid none of whose rows is shorter than the first one,
    so on every rectangular grid and on the grid without rows,
    [search_for_words] raises nothing: it returns a list of matches; on
    the grid without rows the list is empty; and the list holds no match
    for a word longer than the grid is high and wide, nor for a word
    with a letter that is in no cell. *)
Theorem search_for_words_not_found (g : Grid) (words : list string) :
  wide_enough g ->
  exists ms,
    search_for_words g words = Ok ms
    /\ (g = [] -> ms = [])
    /\ forall w,
         (Z.max (nrows g) (ncols g) < Z.of_nat (String.length w)
          \/ exists i ch, String.get i w = Some ch
               /\ forall row, In row g -> ~ In (str ch) row) ->
         forall m, In m ms -> match_word m <> w.
Proof.
  intros Hw.
  destruct (not_found_rectangular (truncate g) (len g) (ncols g) words
              (truncate_rectangular g Hw)) as [ms [Hs [Hnil Hno]]].
  exists ms. rewrite !search_for_words_collect in *.
  rewrite collect_truncate in Hs by exact Hw.
  split; [exact Hs|]. split.
  - intros ->. apply Hnil. reflexivity.
  - intros w [Hlong | [i [ch [Hget Habs]]]] m Hm.
    + apply (Hno w); [|exact Hm]. left. exact Hlong.
    + apply (Hno w); [|exact Hm]. right. exists i, ch.
      split; [exact Hget|]. intros row' Hrow' Hx.
      destruct (in_truncate g row' (str ch) Hrow' Hx) as [row [Hrow Hin]].
      apply (Habs row Hrow Hin).
Qed.

Lemma search_for_words_not_found_witness :
  rectangular grid_abcd 2 2 /\ wide_enough grid_abcd
  /\ exists ms,
       search_for_words grid_abcd ["ABC"; "AZ"]%string = Ok ms
       /\ (forall m, In m ms -> match_word m <> "ABC"%string)
       /\ (forall m, In m ms -> match_word m <> "AZ"%string).
Proof.
  assert (Hw : wide_enough grid_abcd)
    by exact (rectangular_wide_enough grid_abcd 2 2 grid_abcd_rectangular).
  split; [exact grid_abcd_rectangular|]. split; [exact Hw|].
  destruct (search_for_words_not_found grid_abcd ["ABC"; "AZ"]%string Hw)
    as [ms [Hs [_ Hno]]].
  exists ms. split; [exact Hs|]. split.
  - apply Hno. left. simpl. unfold nrows, len. simpl. lia.
  - apply Hno. right. exists 1%nat, "Z"%char. split; [reflexivity|].
    intros row Hrow Hin. simpl in Hrow.
    destruct Hrow as [<- | [<- | []]]; simpl in Hin;
      destruct Hin as [H | [H | []]]; discriminate H.
Defined.

(** X3. Cells beyond the length of the first row are never read: when no
    row is shorter than the first one, the searcher raises nothing and
    returns what it returns on the grid with every row cut to the length
    of the first. *)
Theorem search_for_words_ignores_extra_cells (g : Grid)
    (words : list string) :
  wide_enough g ->
  search_for_words g words = search_for_words (truncate g) words
  /\ exists ms, search_for_words g words = Ok ms.
Proof.
  intros Hw. rewrite !search_for_words_collect.
  rewrite collect_truncate by exact Hw. split; [reflexivity|].
  rewrite <- (collect_truncate g) by exact Hw.
  apply (collect_total (truncate g) (len g) (ncols g)).
  apply truncate_rectangular. exact Hw.
Qed.

Lemma search_for_words_ignores_extra_cells_witness :
  wide_enough [ ["A"; "B"]; ["C"; "D"; "E"] ]%string
  /\ search_for_words [ ["A"; "B"]; ["C"; "D"; "E"] ]%string
       [ "DE"; "BD" ]%string
     = search_for_words grid_abcd [ "DE"; "BD" ]%string.
Proof.
  assert (Hw : wide_enough [ ["A"; "B"]; ["C"; "D"; "E"] ]%string).
  { unfold wide_enough. repeat constructor; simpl; unfold len; simpl; lia. }
  split; [exact Hw|].
  destruct (search_for_words_ignores_extra_cells
              [ ["A"; "B"]; ["C"; "D"; "E"] ]%string
              [ "DE"; "BD" ]%string Hw) as [H _].
  exact H.
Defined.

(* ================================================================== *)
(** ** Grid searcher: further properties *)

Lemma first_match_Some_any (g : Grid) (dirs : list Direction)
    (word : string) (m : Match) :
  first_match g dirs word = Ok (Some m) ->
  exists r c d,
    (0 <= r < len g /\ 0 <= c < ncols g) /\ In d dirs
    /\ occurs g word r c d
    /\ m = (word, r + 1, c + 1, direction_name d).
Proof.
  intros H. unfold first_match in H. apply first_some_Some in H.
  destruct H as [rpre [r [rpost [Hrows [Hrow _]]]]].
  apply range_split in Hrows. destruct Hrows as [Hr _].
  unfold pick_row in Hrow. destruct g as [|row0 g'].
  { unfold len in Hr. simpl in Hr. lia. }
  rewrite py_index_first in Hrow. simpl in Hrow.
  apply first_some_Some in Hrow.
  destruct Hrow as [cpre [c [cpost [Hcols [Hcol _]]]]].
  apply range_split in Hcols. destruct Hcols as [Hc _].
  unfold pick_column in Hcol. apply first_some_Some in Hcol.
  destruct Hcol as [dpre [d [dpost [Hdirs [Hdir _]]]]].
  apply pick_direction_Some in Hdir. destruct Hdir as [Hocc Hm].
  exists r, c, d. split; [split; assumption|].
  split; [rewrite Hdirs; apply in_or_app; right; left; reflexivity|].
  auto.
Qed.

Lemma collect_sound (g : Grid) (dirs : list Direction)
    (words : list string) : forall ms,
  collect g dirs words = Ok ms ->
  (List.length ms <= List.length words)%nat
  /\ forall m, In m ms ->
       exists w, In w words /\ first_match g dirs w = Ok (Some m).
Proof.
  induction words as [|w rest IH]; simpl; intros ms H.
  - injection H as <-. split; [simpl; lia | intros m []].
  - destruct (first_match g dirs w) as [o|] eqn:E; simpl in H;
      [|discriminate].
    destruct (collect g dirs rest) as [ms'|]; simpl in H; [|discriminate].
    injection H as <-. destruct (IH ms' eq_refl) as [Hlen Hin].
    split.
    + rewrite length_app. destruct o; simpl; lia.
    + intros m Hm. apply in_app_or in Hm. destruct Hm as [Hm | Hm].
      * destruct o as [m'|]; simpl in Hm; [|contradiction].
        destruct Hm as [-> | []]. exists w. auto.
      * destruct (Hin m Hm) as [w' [Hw' Hf]]. exists w'. auto.
Qed.

(** X4. Whatever the grid, when the searcher returns, it returns no more
    matches than words; the word of each match is a word of the list,
    its row lies between 1 and the number of rows, its column between 1
    and the length of the first row, its direction is the name of an
    entry of the table, and the matcher accepts the word at that cell,
    counted from 0, along that entry. *)
Theorem search_for_words_sound (g : Grid) (words : list string)
    (ms : list Match) :
  search_for_words g words = Ok ms ->
  (List.length ms <= List.length words)%nat
  /\ forall m, In m ms ->
       In (match_word m) words
       /\ 1 <= match_row m <= len g
       /\ 1 <= match_col m <= ncols g
       /\ exists d,
            In d get_directions
            /\ match_direction m = direction_name d
            /\ find_word_in_direction g (match_word m)
                 (match_row m - 1) (match_col m - 1)
                 (delta_row d) (delta_col d) = Ok true.
Proof.
  intros H. rewrite search_for_words_collect in H.
  apply collect_sound in H. destruct H as [Hlen Hin].
  split; [exact Hlen|]. intros m Hm.
  destruct (Hin m Hm) as [w [Hw Hf]].
  apply first_match_Some_any in Hf.
  destruct Hf as [r [c [d [[Hr Hc] [Hd [Hocc ->]]]]]].
  unfold match_word, match_row, match_col, match_direction. simpl.
  split; [exact Hw|]. split; [lia|]. split; [lia|].
  exists d. split; [exact Hd|]. split; [reflexivity|].
  replace (r + 1 - 1) with r by lia. replace (c + 1 - 1) with c by lia.
  exact Hocc.
Qed.

Lemma search_for_words_sound_witness :
  search_for_words [ ["A"; "B"]; ["C"; "D"; "E"] ]%string
    [ "BA"; "Q"; "A" ]%string
  = Ok [ ("BA"%string, 1, 2, "horizontal_left"%string);
         ("A"%string, 1, 1, "horizontal_right"%string) ]
  /\ (2 <= 3)%nat
  /\ In "A"%string [ "BA"; "Q"; "A" ]%string.
Proof.
  assert (H : search_for_words [ ["A"; "B"]; ["C"; "D"; "E"] ]%string
                [ "BA"; "Q"; "A" ]%string
              = Ok [ ("BA"%string, 1, 2, "horizontal_left"%string);
                     ("A"%string, 1, 1, "horizontal_right"%string) ])
    by (vm_compute; reflexivity).
  split; [exact H|].
  destruct (search_for_words_sound _ _ _ H) as [Hlen Hin].
  split; [exact Hlen|].
  destruct (Hin ("A"%string, 1, 1, "horizontal_right"%string))
    as [Hw _]; [right; left; reflexivity|].
  exact Hw.
Defined.

(** On a rectangular grid a word is reported exactly when it occurs at
    some cell along some entry of the table. *)
Lemma found_iff_occurs (g : Grid) (R C : Z) (word : string) :
  rectangular g R C ->
  (exists m, search_for_words g [word] = Ok [m]) <->
  (exists r c d, (0 <= r < R /\ 0 <= c < C) /\ In d get_directions
                 /\ occurs g word r c d).
Proof.
  intros Hg.
  destruct (first_match_total g R C Hg get_directions word) as [o Ho].
  rewrite (search_one g word o Ho). split.
  - intros [m Hm]. destruct o as [m'|]; simpl in Hm; [|discriminate].
    apply (first_match_sound g R C word _ Hg) in Ho.
    destruct Ho as [r [c [d [Hin [Hd [Hocc _]]]]]].
    exists r, c, d. auto.
  - intros [r [c [d [[Hr Hc] [Hd Hocc]]]]]. destruct o as [m|].
    + exists m. reflexivity.
    + unfold occurs in Hocc.
      rewrite (first_match_None g R C Hg get_directions word Ho r c d
                 Hr Hc Hd) in Hocc. discriminate.
Qed.

Lemma get_list_ascii (s : string) : forall k,
  String.get k s = nth_error (list_ascii_of_string s) k.
Proof.
  induction s as [|a s IH]; intros [|k]; simpl; try reflexivity.
  apply IH.
Qed.

Lemma length_list_ascii (s : string) :
  List.length (list_ascii_of_string s) = String.length s.
Proof. induction s as [|a s IH]; simpl; [reflexivity | rewrite IH; reflexivity]. Qed.

Lemma reverse_length (s : string) :
  String.length (reverse s) = String.length s.
Proof.
  unfold reverse. rewrite <- !length_list_ascii.
  rewrite list_ascii_of_string_of_list_ascii, length_rev. reflexivity.
Qed.

Lemma reverse_get (s : string) (k : nat) :
  (k < String.length s)%nat ->
  String.get k (reverse s) = String.get (String.length s - S k) s.
Proof.
  intros Hk. unfold reverse. rewrite !get_list_ascii.
  rewrite list_ascii_of_string_of_list_ascii, nth_error_rev.
  rewrite length_list_ascii.
  destruct (Nat.ltb_spec k (String.length s)); [reflexivity | lia].
Qed.

Lemma reverse_involutive (s : string) : reverse (reverse s) = s.
Proof.
  unfold reverse. rewrite list_ascii_of_string_of_list_ascii.
  rewrite rev_involutive. apply string_of_list_ascii_of_string.
Qed.

(** Read from its last cell in the opposite direction, an occurrence is
    an occurrence of the word reversed. *)
Lemma matches_along_reverse (g : Grid) (R C : Z) (word : string)
    (r c dr dc : Z) :
  matches_along g R C word r c dr dc ->
  matches_along g R C (reverse word)
    (r + (Z.of_nat (String.length word) - 1) * dr)
    (c + (Z.of_nat (String.length word) - 1) * dc) (- dr) (- dc).
Proof.
  unfold matches_along, matches_from. intros H k Hk.
  rewrite reverse_length in Hk.
  specialize (H (String.length word - S k)%nat).
  cbv zeta in H |- *. rewrite reverse_get by exact Hk.
  assert (E : Z.of_nat (String.length word - S k)
              = Z.of_nat (String.length word) - 1 - Z.of_nat k) by lia.
  replace (r + (Z.of_nat (String.length word) - 1) * dr
           + (0 + Z.of_nat k) * - dr)
    with (r + (0 + Z.of_nat (String.length word - S k)) * dr)
    by (rewrite E; ring).
  replace (c + (Z.of_nat (String.length word) - 1) * dc
           + (0 + Z.of_nat k) * - dc)
    with (c + (0 + Z.of_nat (String.length word - S k)) * dc)
    by (rewrite E; ring).
  apply H. lia.
Qed.

Lemma opposite_in_table (d : Direction) :
  In d get_directions ->
  exists d', In d' get_directions
             /\ delta_row d' = - delta_row d
             /\ delta_col d' = - delta_col d.
Proof.
  intros Hd. simpl in Hd.
  destruct Hd as [<- | [<- | [<- | [<- | [<- | [<- | [<- | [<- | []]]]]]]]];
    [ exists (0, -1, "horizontal_left"%string)
    | exists (0, 1, "horizontal_right"%string)
    | exists (-1, 0, "vertical_up"%string)
    | exists (1, 0, "vertical_down"%string)
    | exists (-1, -1, "diagonal_up_left"%string)
    | exists (-1, 1, "diagonal_up_right"%string)
    | exists (1, -1, "diagonal_down_left"%string)
    | exists (1, 1, "diagonal_down_right"%string) ];
    (split; [simpl; tauto | split; reflexivity]).
Qed.

Lemma found_reverse (g : Grid) (R C : Z) (word : string) :
  rectangular g R C ->
  (exists m, search_for_words g [word] = Ok [m]) ->
  exists m, search_for_words g [reverse word] = Ok [m].
Proof.
  intros Hg H. apply (found_iff_occurs g R C word Hg) in H.
  destruct H as [r [c [d [[Hr Hc] [Hd Hocc]]]]].
  apply (found_iff_occurs g R C (reverse word) Hg).
  destruct (String.length word) as [|n] eqn:EL.
  - destruct word; [|discriminate EL].
    exists r, c, d. auto.
  - destruct (opposite_in_table d Hd) as [d' [Hd' [Er Ec]]].
    pose proof Hocc as Hm.
    apply (occurs_matches g R C) in Hm; [|exact Hg].
    destruct (Hm n) as [[Hr' Hc'] _]; [lia|].
    apply matches_along_reverse in Hm.
    rewrite EL in Hm.
    replace (Z.of_nat (S n) - 1) with (0 + Z.of_nat n) in Hm by lia.
    exists (r + (0 + Z.of_nat n) * delta_row d),
           (c + (0 + Z.of_nat n) * delta_col d), d'.
    split; [split; assumption|]. split; [exact Hd'|].
    apply (occurs_matches g R C); [exact Hg|].
    rewrite Er, Ec. exact Hm.
Qed.

(** X5. On a rectangular grid a word is found exactly when the word read
    backwards is found: the table holds with each direction the
    opposite one. *)
Theorem search_finds_reverse (g : Grid) (R C : Z) (word : string) :
  rectangular g R C ->
  (exists m, search_for_words g [word] = Ok [m]) <->
  (exists m, search_for_words g [reverse word] = Ok [m]).
Proof.
  intros Hg. split.
  - apply (found_reverse g R C). exact Hg.
  - intros H. apply (found_reverse g R C) in H; [|exact Hg].
    rewrite reverse_involutive in H. exact H.
Qed.

Lemma search_finds_reverse_witness :
  rectangular grid_wisdom 3 6
  /\ reverse "WISDOM" = "MODSIW"%string
  /\ exists m, search_for_words grid_wisdom [ "MODSIW"%string ] = Ok [m].
Proof.
  assert (Hg : rectangular grid_wisdom 3 6)
    by (split; [reflexivity | repeat constructor]).
  split; [exact Hg|]. split; [reflexivity|].
  apply (search_finds_reverse grid_wisdom 3 6 "WISDOM" Hg).
  exists ("WISDOM"%string, 1, 1, "horizontal_right"%string).
  reflexivity.
Defined.

Lemma occurs_prefix (g : Grid) (R C : Z) (w w' : string) (r c : Z)
    (d : Direction) :
  rectangular g R C ->
  occurs g (w ++ w')%string r c d -> occurs g w r c d.
Proof.
  intros Hg H. apply (occurs_matches g R C) in H; [|exact Hg].
  apply (occurs_matches g R C); [exact Hg|].
  intros k Hk. specialize (H k).
  rewrite <- (append_correct1 w w' k Hk) in H. apply H.
  clear - Hk. revert k Hk.
  induction w as [|a w IH]; intros k Hk; simpl in *; [lia|].
  destruct k as [|k]; [lia|]. specialize (IH k). lia.
Qed.

(** X6. On a rectangular grid, when a word is found, so is each of its
    prefixes, at the same cell or at a cell that comes before it by row,
    then by column. *)
Theorem search_finds_prefix (g : Grid) (R C : Z) (w w' : string)
    (m : Match) :
  rectangular g R C ->
  search_for_words g [ (w ++ w')%string ] = Ok [m] ->
  exists m',
    search_for_words g [w] = Ok [m']
    /\ (match_row m' < match_row m
        \/ (match_row m' = match_row m /\ match_col m' <= match_col m)).
Proof.
  intros Hg H.
  destruct (first_match_total g R C Hg get_directions (w ++ w')%string)
    as [o Ho].
  rewrite (search_one g _ o Ho) in H.
  destruct o as [m0|]; simpl in H; [|discriminate]. injection H as ->.
  destruct (first_match_Some g R C Hg get_directions _ m Ho)
    as [r [c [k [d [[Hr Hc] [Hk [Hocc [-> _]]]]]]]].
  apply (occurs_prefix g R C) in Hocc; [|exact Hg].
  destruct (first_match_total g R C Hg get_directions w) as [[m'|] Ho'].
  - exists m'. split; [exact (search_one g w _ Ho')|].
    destruct (first_match_Some g R C Hg get_directions w m' Ho')
      as [r0 [c0 [k0 [d0 [_ [_ [_ [-> Hmin]]]]]]]].
    specialize (Hmin r c k d Hr Hc Hk Hocc). unfold search_le in Hmin.
    unfold match_row, match_col. simpl. lia.
  - exfalso. unfold occurs in Hocc.
    rewrite (first_match_None g R C Hg get_directions w Ho' r c d Hr Hc)
      in Hocc; [discriminate|].
    eapply nth_error_In. exact Hk.
Qed.

Lemma search_finds_prefix_witness :
  rectangular grid_wisdom 3 6
  /\ search_for_words grid_wisdom [ ("AI" ++ "S")%string ]
     = Ok [ ("AIS"%string, 3, 3, "vertical_up"%string) ]
  /\ exists m',
       search_for_words grid_wisdom [ "AI"%string ] = Ok [m']
       /\ (match_row m' < 3 \/ (match_row m' = 3 /\ match_col m' <= 3)).
Proof.
  assert (Hg : rectangular grid_wisdom 3 6)
    by (split; [reflexivity | repeat constructor]).
  split; [exact Hg|]. split; [reflexivity|].
  apply (search_finds_prefix grid_wisdom 3 6 "AI" "S"
           ("AIS"%string, 3, 3, "vertical_up"%string) Hg).
  reflexivity.
Defined.


(** X7. The grid is not put to uppercase as the words are: on a
    rectangular grid of ASCII cells none of which is its own uppercase,
    the searcher finds no word loaded by [load_words] from an ASCII
    file. *)
Theorem search_is_case_sensitive (g : Grid) (R C : Z) (file : string) :
  is_ascii file = true ->
  rectangular g R C ->
  (forall row c, In row g -> In c row ->
     is_ascii c = true /\ upper c <> c) ->
  search_for_words g (load_words file) = Ok [].
Proof.
  intros _ Hg Hlow. rewrite search_for_words_collect.
  destruct (collect_Forall2 g R C get_directions (load_words file) Hg)
    as [os [H1 H2]].
  rewrite H1. f_equal.
  destruct (List.concat (map olist os)) as [|m ms] eqn:E; [reflexivity|].
  exfalso.
  destruct (in_concat_olist _ _ _ m H2) as [w [Hw Hf]].
  { rewrite E. left. reflexivity. }
  apply (first_match_sound g R C w _ Hg) in Hf.
  destruct Hf as [r [c [d [_ [_ [Hocc _]]]]]].
  unfold load_words in Hw. apply load_words_lines_upper in Hw.
  destruct Hw as [[] | [line [_ [Hup Hne]]]].
  assert (Hfix : upper w = w) by (rewrite Hup; apply upper_idempotent).
  destruct w as [|ch rest]; [discriminate Hne|].
  apply (occurs_matches g R C) in Hocc; [|exact Hg].
  destruct (Hocc 0%nat) as [_ [ch' [Hget Hcell]]]; [simpl; lia|].
  simpl in Hget. injection Hget as <-.
  apply cell_In in Hcell. destruct Hcell as [row [Hrow Hin]].
  destruct (Hlow row (str ch) Hrow Hin) as [_ Hne']. apply Hne'.
  simpl in Hfix. injection Hfix as Hch _.
  unfold str. simpl. rewrite Hch. reflexivity.
Qed.

Lemma search_is_case_sensitive_witness :
  is_ascii "ab" = true
  /\ rectangular [ ["a"; "b"]; ["c"; "d"] ]%string 2 2
  /\ search_for_words [ ["a"; "b"]; ["c"; "d"] ]%string
       (load_words "ab")
     = Ok [].
Proof.
  assert (Hg : rectangular [ ["a"; "b"]; ["c"; "d"] ]%string 2 2)
    by (split; [reflexivity | repeat constructor]).
  split; [reflexivity|]. split; [exact Hg|].
  apply (search_is_case_sensitive _ 2 2 "ab" eq_refl Hg).
  intros row c Hrow Hc. simpl in Hrow.
  destruct Hrow as [<- | [<- | []]]; simpl in Hc;
    destruct Hc as [<- | [<- | []]]; (split; [reflexivity | discriminate]).
Defined.

(* ================================================================== *)
(** ** Loaders: further properties *)

Lemma split_from_blank (s : string) : forall cur,
  split_from s cur = [] <-> (cur = EmptyString /\ blank s = true).
Proof.
  unfold blank. induction s as [|c rest IH]; intros cur; simpl.
  - destruct cur; split; try discriminate; auto.
    intros [H _]. discriminate H.
  - destruct (isspace c) eqn:E; simpl.
    + destruct cur as [|a cur'].
      * rewrite IH. tauto.
      * split; [discriminate|]. intros [H _]. discriminate H.
    + rewrite IH. split; [|intros [_ H]; discriminate H].
      intros [H _]. destruct cur; discriminate H.
Qed.

Lemma lstrip_blank (s : string) :
  lstrip s = EmptyString <-> blank s = true.
Proof.
  unfold blank. induction s as [|c rest IH]; simpl; [tauto|].
  destruct (isspace c); simpl; [exact IH|].
  split; discriminate.
Qed.

Lemma rstrip_blank (s : string) :
  rstrip s = EmptyString <-> blank s = true.
Proof.
  unfold blank. induction s as [|c rest IH]; simpl; [tauto|].
  destruct (rstrip rest) as [|a r'] eqn:E.
  - assert (Hb : string_forallb isspace rest = true) by (apply IH; reflexivity).
    rewrite Hb, andb_true_r.
    destruct (isspace c); split; auto; discriminate.
  - split; [discriminate|]. intros H.
    apply andb_true_iff in H. destruct H as [_ H].
    apply IH in H. discriminate H.
Qed.

Lemma blank_lstrip (s : string) : blank (lstrip s) = blank s.
Proof.
  unfold blank. induction s as [|c rest IH]; simpl; [reflexivity|].
  destruct (isspace c) eqn:E; simpl; [exact IH|].
  rewrite E. reflexivity.
Qed.

Lemma strip_blank (s : string) :
  strip s = EmptyString <-> blank s = true.
Proof.
  unfold strip. rewrite rstrip_blank, blank_lstrip. tauto.
Qed.

Lemma split_lstrip (s : string) :
  split_from (lstrip s) EmptyString = split_from s EmptyString.
Proof.
  induction s as [|c rest IH]; simpl; [reflexivity|].
  destruct (isspace c) eqn:E; [exact IH|].
  simpl. rewrite E. reflexivity.
Qed.

Lemma split_rstrip (s : string) : forall cur,
  split_from (rstrip s) cur = split_from s cur.
Proof.
  induction s as [|c rest IH]; intros cur; simpl; [reflexivity|].
  destruct (rstrip rest) as [|a r'] eqn:E.
  - destruct (isspace c) eqn:Ec; simpl.
    + rewrite <- IH. simpl. destruct cur; reflexivity.
    + rewrite Ec. rewrite <- IH. reflexivity.
  - simpl. destruct (isspace c); rewrite <- !IH; reflexivity.
Qed.

(** Stripping a line first does not change its tokens. *)
Lemma split_strip (s : string) : split (strip s) = split s.
Proof.
  unfold split, strip. rewrite split_rstrip. apply split_lstrip.
Qed.

Lemma string_forallb_app (p : ascii -> bool) (s t : string) :
  string_forallb p (s ++ t)%string
  = string_forallb p s && string_forallb p t.
Proof.
  induction s as [|c s IH]; simpl; [reflexivity|].
  rewrite IH. apply andb_assoc.
Qed.

(** The tokens are not empty and hold no whitespace. *)
Lemma split_from_tokens (s : string) : forall cur t,
  space_free cur = true ->
  In t (split_from s cur) ->
  nonempty t = true /\ space_free t = true.
Proof.
  induction s as [|c rest IH]; intros cur t Hcur Ht; simpl in Ht.
  - destruct cur as [|a cur']; [contradiction|].
    destruct Ht as [<- | []]. auto.
  - destruct (isspace c) eqn:E.
    + destruct cur as [|a cur'].
      * apply (IH EmptyString); [reflexivity | exact Ht].
      * destruct Ht as [<- | Ht]; [auto|].
        apply (IH EmptyString); [reflexivity | exact Ht].
    + apply (IH (cur ++ String c EmptyString)%string); [|exact Ht].
      unfold space_free in *. rewrite string_forallb_app, Hcur. simpl.
      rewrite E. reflexivity.
Qed.

Lemma filter_nonempty_split (s : string) :
  filter nonempty (split s) = split s.
Proof.
  apply forallb_filter_id. apply forallb_forall. intros t Ht.
  apply (split_from_tokens s EmptyString t eq_refl Ht).
Qed.

Lemma load_grid_lines_tokens (ls : list string) : forall grid,
  load_grid_lines ls grid = grid ++ filter has_cells (map split ls).
Proof.
  induction ls as [|l ls IH]; intros grid; simpl.
  - symmetry. apply app_nil_r.
  - rewrite filter_nonempty_split, split_strip.
    destruct (strip l) as [|a s'] eqn:E; simpl.
    + apply strip_blank in E.
      assert (Hs : split l = []).
      { apply split_from_blank. auto. }
      rewrite Hs. simpl. apply IH.
    + assert (Hs : split l <> []).
      { intros Hs. apply split_from_blank in Hs. destruct Hs as [_ Hs].
        apply strip_blank in Hs. rewrite E in Hs. discriminate Hs. }
      destruct (split l) as [|t ts] eqn:Es; [contradiction|].
      simpl. rewrite IH, <- app_assoc. reflexivity.
Qed.

Lemma load_grid_split (file : string) :
  load_grid file = filter has_cells (map split (lines file)).
Proof. unfold load_grid. apply load_grid_lines_tokens. Qed.

Lemma load_grid_rows (file : string) (row : list string) :
  In row (load_grid file) ->
  row <> []
  /\ forall c, In c row -> nonempty c = true /\ space_free c = true.
Proof.
  intros Hrow. rewrite load_grid_split in Hrow.
  apply filter_In in Hrow. destruct Hrow as [Hin Hcells].
  split; [intros ->; discriminate Hcells|].
  apply in_map_iff in Hin. destruct Hin as [l [<- _]].
  intros c Hc. apply (split_from_tokens l EmptyString c eq_refl Hc).
Qed.

(** X8. The rows of the loaded grid are the lists of tokens of the
    lines of the file that have a token, in the order of the file:
    neither stripping the line nor dropping empty tokens changes
    them. *)
Theorem load_grid_tokens (file : string) :
  load_grid file = filter has_cells (map split (lines file)).
Proof. apply load_grid_split. Qed.

(** X9. In a loaded grid no row is empty and no cell is empty or holds
    whitespace; so a loaded grid that has a row has a first row with a
    cell. *)
Theorem load_grid_cells (file : string) :
  (forall row, In row (load_grid file) ->
     row <> []
     /\ forall c, In c row -> nonempty c = true /\ space_free c = true)
  /\ (load_grid file <> [] -> 1 <= ncols (load_grid file)).
Proof.
  assert (Hrows : forall row, In row (load_grid file) ->
     row <> []
     /\ forall c, In c row -> nonempty c = true /\ space_free c = true).
  { intros row Hrow. apply (load_grid_rows file). exact Hrow. }
  split; [exact Hrows|].
  intros Hne. destruct (load_grid file) as [|row0 g] eqn:E;
    [contradiction|].
  destruct (Hrows row0) as [H0 _]; [left; reflexivity|].
  simpl. destruct row0; [contradiction|].
  rewrite len_cons. pose proof (len_nonneg row0). lia.
Qed.

Lemma load_grid_cells_witness :
  load_grid grid_file <> [] /\ 1 <= ncols (load_grid grid_file).
Proof.
  assert (H : load_grid grid_file <> [])
    by (vm_compute; discriminate).
  split; [exact H|].
  destruct (load_grid_cells grid_file) as [_ Hc].
  exact (Hc H).
Defined.

Lemma isspace_upper_char (c : ascii) : isspace (upper_char c) = isspace c.
Proof. destruct c as [[] [] [] [] [] [] [] []]; reflexivity. Qed.

Lemma line_feed_upper_char (c : ascii) :
  Ascii.eqb (upper_char c) "010" = Ascii.eqb c "010".
Proof. destruct c as [[] [] [] [] [] [] [] []]; reflexivity. Qed.

Lemma upper_app (s t : string) :
  upper (s ++ t)%string = (upper s ++ upper t)%string.
Proof. induction s as [|c s IH]; simpl; [reflexivity | rewrite IH; reflexivity]. Qed.

Lemma lstrip_upper (s : string) : lstrip (upper s) = upper (lstrip s).
Proof.
  induction s as [|c s IH]; simpl; [reflexivity|].
  rewrite isspace_upper_char. destruct (isspace c); [exact IH | reflexivity].
Qed.

Lemma rstrip_upper (s : string) : rstrip (upper s) = upper (rstrip s).
Proof.
  induction s as [|c s IH]; simpl; [reflexivity|].
  rewrite IH, isspace_upper_char.
  destruct (rstrip s) as [|a r']; simpl; [|reflexivity].
  destruct (isspace c); reflexivity.
Qed.

Lemma strip_upper (s : string) : strip (upper s) = upper (strip s).
Proof. unfold strip. rewrite lstrip_upper. apply rstrip_upper. Qed.

Lemma rstrip_idempotent (s : string) : rstrip (rstrip s) = rstrip s.
Proof.
  induction s as [|c s IH]; simpl; [reflexivity|].
  destruct (rstrip s) as [|a r'] eqn:E.
  - destruct (isspace c) eqn:Ec; simpl; [reflexivity|].
    rewrite Ec. reflexivity.
  - simpl. simpl in IH. destruct (rstrip r') as [|b r''] eqn:E'.
    + destruct (isspace a); [discriminate IH|].
      injection IH as <-. reflexivity.
    + injection IH as <-. reflexivity.
Qed.

Lemma lstrip_rstrip_lstrip (s : string) :
  lstrip (rstrip (lstrip s)) = rstrip (lstrip s).
Proof.
  induction s as [|c s IH]; simpl; [reflexivity|].
  destruct (isspace c) eqn:Ec; [exact IH|].
  simpl. destruct (rstrip s) as [|a r']; rewrite ?Ec; simpl; rewrite ?Ec;
    reflexivity.
Qed.

Lemma strip_idempotent (s : string) : strip (strip s) = strip s.
Proof.
  unfold strip. rewrite lstrip_rstrip_lstrip. apply rstrip_idempotent.
Qed.

Lemma load_words_lines_fixed (ws : list string) : forall words,
  Forall (fun w => upper (strip w) = w /\ nonempty w = true) ws ->
  load_words_lines ws words = words ++ ws.
Proof.
  induction ws as [|w ws IH]; intros words H; simpl.
  - symmetry. apply app_nil_r.
  - inversion H as [|? ? [Hw Hne] Hrest]; subst.
    rewrite Hw, Hne. rewrite IH by exact Hrest.
    rewrite <- app_assoc. reflexivity.
Qed.

(** X10. Every word loaded from an ASCII file is in normal form: not
    empty, without whitespace at either end, and its own uppercase; so
    loading the loaded words, one per line, gives them back. *)
Theorem load_words_normal_form (file : string) :
  is_ascii file = true ->
  (forall w, In w (load_words file) ->
     nonempty w = true /\ strip w = w /\ upper w = w)
  /\ load_words_lines (load_words file) [] = load_words file.
Proof.
  intros _.
  assert (H : forall w, In w (load_words file) ->
     nonempty w = true /\ strip w = w /\ upper w = w).
  { intros w Hw. unfold load_words in Hw.
    apply load_words_lines_upper in Hw.
    destruct Hw as [[] | [line [_ [-> Hne]]]].
    split; [exact Hne|]. split.
    - rewrite strip_upper, strip_idempotent. reflexivity.
    - apply upper_idempotent. }
  split; [exact H|].
  apply (load_words_lines_fixed (load_words file) []).
  apply Forall_forall. intros w Hw.
  destruct (H w Hw) as [Hne [Hs Hu]]. rewrite Hs. auto.
Qed.

Lemma load_words_normal_form_witness :
  is_ascii "  new york  " = true
  /\ In "NEW YORK"%string (load_words "  new york  ")
  /\ strip "NEW YORK" = "NEW YORK"%string.
Proof.
  assert (Hin : In "NEW YORK"%string (load_words "  new york  "))
    by (left; reflexivity).
  split; [reflexivity|]. split; [exact Hin|].
  destruct (load_words_normal_form "  new york  " eq_refl) as [H _].
  destruct (H _ Hin) as [_ [Hs _]]. exact Hs.
Defined.

Lemma lines_from_upper (text : string) : forall cur,
  lines_from (upper text) (upper cur) = map upper (lines_from text cur).
Proof.
  induction text as [|c text IH]; intros cur; simpl.
  - destruct cur; reflexivity.
  - rewrite line_feed_upper_char.
    destruct (Ascii.eqb c "010"); simpl.
    + rewrite upper_app. simpl. f_equal. apply (IH EmptyString).
    + rewrite <- IH. rewrite upper_app. reflexivity.
Qed.

Lemma load_words_lines_map_upper (ls : list string) : forall words,
  load_words_lines (map upper ls) words = load_words_lines ls words.
Proof.
  induction ls as [|l ls IH]; intros words; simpl; [reflexivity|].
  rewrite strip_upper, upper_idempotent.
  destruct (nonempty (upper (strip l))); apply IH.
Qed.

(** X11. The case of an ASCII word file does not matter: the file put
    to uppercase loads as the same list of words. *)
Theorem load_words_ignores_case (file : string) :
  is_ascii file = true ->
  load_words (upper file) = load_words file.
Proof.
  intros _. unfold load_words, lines.
  pose proof (lines_from_upper file EmptyString) as H. simpl in H.
  rewrite H. apply load_words_lines_map_upper.
Qed.

Lemma load_words_ignores_case_witness :
  is_ascii ("Wisdom" ++ line_feed ++ " exodus ") = true
  /\ load_words (upper ("Wisdom" ++ line_feed ++ " exodus "))
     = [ "WISDOM"; "EXODUS" ]%string.
Proof.
  split; [reflexivity|].
  rewrite (load_words_ignores_case ("Wisdom" ++ line_feed ++ " exodus ")
             eq_refl).
  reflexivity.
Defined.

(* ================================================================== *)
(** ** Main program: properties *)

Lemma append_assoc (s t u : string) :
  ((s ++ t) ++ u = s ++ (t ++ u))%string.
Proof. induction s as [|c s IH]; simpl; [reflexivity | rewrite IH; reflexivity]. Qed.

Lemma append_nil_r (s : string) : (s ++ EmptyString = s)%string.
Proof. induction s as [|c s IH]; simpl; [reflexivity | rewrite IH; reflexivity]. Qed.

Lemma extends_refl (s : string) : extends s s.
Proof. exists EmptyString. symmetry. apply append_nil_r. Qed.

Lemma extends_trans (s t u : string) :
  extends s t -> extends t u -> extends s u.
Proof.
  intros [p ->] [q ->]. exists (p ++ q)%string. apply append_assoc.
Qed.

Lemma extends_print (s stdout : string) : extends stdout (print s stdout).
Proof. exists (s ++ line_feed)%string. reflexivity. Qed.

Lemma extends_print_rows (ms : list Match) : forall stdout,
  extends stdout (print_rows ms stdout).
Proof.
  induction ms as [|m ms IH]; intros stdout; simpl; [apply extends_refl|].
  eapply extends_trans; [apply extends_print | apply IH].
Qed.

Lemma main_try_result (grid_file words_file : string) (fs : FileSystem)
    (stdout : string) :
  exists stdout' fs' e,
    main_try grid_file words_file fs stdout = (stdout', fs', e)
    /\ extends stdout stdout'
    /\ try_result grid_file words_file fs fs' e.
Proof.
  unfold main_try.
  destruct (fs grid_file) as [grid_text|] eqn:Eg.
  2:{ do 3 eexists. split; [reflexivity|].
      split; [apply extends_refl | apply try_no_grid; exact Eg]. }
  destruct (fs words_file) as [words_text|] eqn:Ew.
  2:{ do 3 eexists. split; [reflexivity|].
      split; [apply extends_refl | eapply try_no_words; eassumption]. }
  destruct (load_grid grid_text) as [|row0 g] eqn:El.
  { do 3 eexists. split; [reflexivity|].
    split; [apply extends_refl | eapply try_empty_grid; eassumption]. }
  rewrite py_index_first. cbv zeta.
  destruct (search_for_words (row0 :: g) (load_words words_text))
    as [found_words|] eqn:Es.
  - do 3 eexists. split; [reflexivity|]. split.
    + destruct found_words as [|m ms];
        repeat (eapply extends_trans; [|apply extends_print]);
        try (eapply extends_trans; [|apply extends_print_rows]);
        repeat (eapply extends_trans; [|apply extends_print]);
        apply extends_refl.
    + apply (try_done _ _ _ grid_text words_text found_words);
        try assumption; rewrite El; [discriminate | exact Es].
  - do 3 eexists. split; [reflexivity|]. split.
    + repeat (eapply extends_trans; [|apply extends_print]).
      apply extends_refl.
    + apply (try_search_raises _ _ _ grid_text words_text);
        try assumption; rewrite El; [discriminate | exact Es].
Qed.

Lemma write_file_other (fs : FileSystem) (name content n : string) :
  n <> name -> write_file fs name content n = fs n.
Proof.
  intros H. unfold write_file.
  destruct (String.eqb_spec n name); [contradiction | reflexivity].
Qed.

Lemma write_file_same (fs : FileSystem) (name content : string) :
  write_file fs name content name = Some content.
Proof. unfold write_file. rewrite String.eqb_refl. reflexivity. Qed.

(** X12. Whatever the arguments and the files, a run ends with status 0
    or 1, only adds to the output, and leaves every file but
    [word_search_results.txt] as it was; when it ends with status 1 it
    has written no file at all. *)
Theorem main_writes_only_results (argv : list string) (fs : FileSystem)
    (stdout : string) :
  (exit_code (main argv fs stdout) = 0
   \/ exit_code (main argv fs stdout) = 1)
  /\ extends stdout (out_stdout (main argv fs stdout))
  /\ (forall name, name <> results_file ->
        out_files (main argv fs stdout) name = fs name)
  /\ (exit_code (main argv fs stdout) = 1 ->
      out_files (main argv fs stdout) = fs).
Proof.
  assert (Husage : forall o,
    o = {| out_stdout :=
             print "Example: python word_search.py letter_grid.txt words_to_search.txt"
               (print "Usage: python word_search.py <grid_file> <words_file>"
                  stdout);
           out_files := fs; exit_code := 1 |} ->
    (exit_code o = 0 \/ exit_code o = 1)
    /\ extends stdout (out_stdout o)
    /\ (forall name, name <> results_file -> out_files o name = fs name)
    /\ (exit_code o = 1 -> out_files o = fs)).
  { intros o ->. simpl. split; [auto|]. split; [|auto].
    eapply extends_trans; apply extends_print. }
  destruct argv as [|a0 [|gf [|wf [|extra rest]]]];
    try (apply Husage; reflexivity).
  unfold main.
  destruct (main_try_result gf wf fs stdout) as [out' [fs' [e [-> [Hext Hres]]]]].
  destruct Hres; simpl;
    (split; [auto|]); (split; [|split]);
    try (eapply extends_trans; [exact Hext|];
         eapply extends_trans; apply extends_print);
    try exact Hext; try reflexivity; try discriminate.
  intros name Hname. apply write_file_other. exact Hname.
Qed.

Lemma main_writes_only_results_witness :
  "grid.txt"%string <> results_file
  /\ out_files (main ["prog"; "grid.txt"; "words.txt"]%string
                  sample_files EmptyString) "grid.txt"%string
     = sample_files "grid.txt"%string.
Proof.
  assert (H : "grid.txt"%string <> results_file) by discriminate.
  split; [exact H|].
  destruct (main_writes_only_results ["prog"; "grid.txt"; "words.txt"]%string
              sample_files EmptyString) as [_ [_ [Hf _]]].
  exact (Hf _ H).
Defined.

Lemma main_outcome (a0 grid_file words_file : string) (fs : FileSystem)
    (stdout : string) :
  exists fs' e,
    try_result grid_file words_file fs fs' e
    /\ out_files (main [a0; grid_file; words_file] fs stdout) = fs'
    /\ exit_code (main [a0; grid_file; words_file] fs stdout)
       = match e with None => 0 | Some _ => 1 end.
Proof.
  unfold main.
  destruct (main_try_result grid_file words_file fs stdout)
    as [out' [fs' [e [-> [_ Hres]]]]].
  exists fs', e. split; [exact Hres|].
  destruct e as [[filename | message]|]; simpl; auto.
Qed.

(** X13. A run ends with status 0 only when it was given two names
    after the program's, both files exist, the grid file has a line with
    a token, and the search raises nothing; the results file then holds
    the header, the rule and one row per match, in the order of the
    matches, and the other files are as they were. *)
Theorem main_success_conditions (argv : list string) (fs : FileSystem)
    (stdout : string) :
  exit_code (main argv fs stdout) = 0 ->
  exists a0 grid_file words_file grid_text words_text found_words,
    argv = [a0; grid_file; words_file]
    /\ fs grid_file = Some grid_text /\ fs words_file = Some words_text
    /\ load_grid grid_text <> []
    /\ search_for_words (load_grid grid_text) (load_words words_text)
       = Ok found_words
    /\ out_files (main argv fs stdout)
       = write_file fs results_file
           (write_rows found_words
              (table_header ++ line_feed ++ table_rule ++ line_feed)%string).
Proof.
  intros H0.
  destruct argv as [|a0 [|gf [|wf [|extra rest]]]];
    try (simpl in H0; discriminate H0).
  destruct (main_outcome a0 gf wf fs stdout) as [fs' [e [Hres [Hf He]]]].
  rewrite H0 in He. rewrite Hf.
  destruct Hres; try discriminate He.
  exists a0, gf, wf, grid_text, words_text, found_words. auto 10.
Qed.

Lemma main_success_conditions_witness :
  exit_code (main ["prog"; "grid.txt"; "words.txt"]%string
               sample_files EmptyString) = 0
  /\ exists found_words,
       out_files (main ["prog"; "grid.txt"; "words.txt"]%string
                    sample_files EmptyString)
       = write_file sample_files results_file
           (write_rows found_words
              (table_header ++ line_feed ++ table_rule ++ line_feed)%string).
Proof.
  assert (H : exit_code (main ["prog"; "grid.txt"; "words.txt"]%string
                           sample_files EmptyString) = 0)
    by (vm_compute; reflexivity).
  split; [exact H|].
  destruct (main_success_conditions _ _ _ H)
    as [a0 [gf [wf [gt [wt [ms [_ [_ [_ [_ [_ Hf]]]]]]]]]]].
  exists ms. exact Hf.
Defined.

Lemma blank_split (l : string) : blank l = true <-> split l = [].
Proof.
  unfold split. rewrite split_from_blank. tauto.
Qed.

(** X14. When the text of the grid file has a line that is not blank and
    every line of it that is not blank has the same number of tokens,
    [load_grid] returns a rectangular grid with at least one row and
    that number of columns, at least one, and [search_for_words] on it
    raises nothing, whatever the words. *)
Theorem load_grid_even_lines (grid_text : string) (C : Z)
    (words : list string) :
  (exists l, In l (lines grid_text) /\ blank l = false) ->
  (forall l, In l (lines grid_text) ->
     blank l = true \/ len (split l) = C) ->
  rectangular (load_grid grid_text) (len (load_grid grid_text)) C
  /\ 1 <= len (load_grid grid_text) /\ 1 <= C
  /\ exists ms, search_for_words (load_grid grid_text) words = Ok ms.
Proof.
  intros [l0 [Hl0 Hb0]] Heven.
  assert (Hrect : rectangular (load_grid grid_text)
                    (len (load_grid grid_text)) C).
  { split; [reflexivity|]. apply Forall_forall. intros row Hrow.
    rewrite load_grid_split in Hrow. apply filter_In in Hrow.
    destruct Hrow as [Hin Hcells]. apply in_map_iff in Hin.
    destruct Hin as [l [<- Hl]].
    destruct (Heven l Hl) as [Hb | Hlen]; [|exact Hlen].
    apply blank_split in Hb. rewrite Hb in Hcells. discriminate Hcells. }
  assert (Hcells0 : has_cells (split l0) = true).
  { destruct (split l0) eqn:E; [|reflexivity].
    apply blank_split in E. congruence. }
  assert (Hin : In (split l0) (load_grid grid_text)).
  { rewrite load_grid_split. apply filter_In.
    split; [apply in_map; exact Hl0 | exact Hcells0]. }
  split; [exact Hrect|]. split; [|split].
  - destruct (load_grid grid_text) as [|row0 g]; [contradiction|].
    rewrite len_cons. pose proof (len_nonneg g). lia.
  - destruct (Heven l0 Hl0) as [Hb | Hlen]; [congruence|].
    rewrite <- Hlen. destruct (split l0) as [|t ts];
      [discriminate Hcells0|].
    rewrite len_cons. pose proof (len_nonneg ts). lia.
  - rewrite search_for_words_collect.
    apply (collect_total _ _ _ get_directions words Hrect).
Qed.

Lemma load_grid_even_lines_witness :
  (exists l, In l (lines grid_file) /\ blank l = false)
  /\ rectangular (load_grid grid_file) (len (load_grid grid_file)) 6
  /\ exists ms,
       search_for_words (load_grid grid_file) [ "MDE"; "QQ" ]%string
       = Ok ms.
Proof.
  assert (H0 : exists l, In l (lines grid_file) /\ blank l = false).
  { exists ("W I S D O M" ++ line_feed)%string.
    split; [left; reflexivity | reflexivity]. }
  split; [exact H0|].
  destruct (load_grid_even_lines grid_file 6 [ "MDE"; "QQ" ]%string H0)
    as [Hrect [_ [_ Hs]]].
  - intros l Hl. right. vm_compute in Hl.
    destruct Hl as [<- | [<- | [<- | []]]]; reflexivity.
  - split; [exact Hrect | exact Hs].
Defined.

(** X15. A grid file without any token, empty or of blank lines only,
    makes the run fail although both files exist: the banner reads the
    first row of a grid that has none, so the run prints the message of
    the [IndexError] and the advice, writes no file and ends with
    status 1, before any search. *)
Theorem main_fails_on_empty_grid (a0 grid_file words_file : string)
    (fs : FileSystem) (stdout grid_text words_text : string) :
  fs grid_file = Some grid_text -> fs words_file = Some words_text ->
  (forall l, In l (lines grid_text) -> blank l = true) ->
  main [a0; grid_file; words_file] fs stdout
  = {| out_stdout :=
         print "Something went wrong. Check your input files are in the correct format."
           (print "Error: list index out of range" stdout);
       out_files := fs;
       exit_code := 1 |}.
Proof.
  intros Hg Hw Hblank.
  assert (Hnil : load_grid grid_text = []).
  { rewrite load_grid_split.
    induction (lines grid_text) as [|l ls IH]; [reflexivity|].
    simpl. assert (E : split l = []).
    { apply blank_split. apply Hblank. left. reflexivity. }
    rewrite E. simpl. apply IH. intros l' Hl'. apply Hblank. right.
    exact Hl'. }
  unfold main, main_try. rewrite Hg, Hw, Hnil. reflexivity.
Qed.

Lemma main_fails_on_empty_grid_witness :
  exit_code
    (main ["prog"; "g"; "w"]%string
       (fun n => if String.eqb n "g" then Some ("  " ++ line_feed)%string
                 else Some "WISDOM"%string)
       EmptyString) = 1.
Proof.
  rewrite (main_fails_on_empty_grid "prog" "g" "w" _ EmptyString
             ("  " ++ line_feed)%string "WISDOM").
  - reflexivity.
  - reflexivity.
  - reflexivity.
  - intros l Hl. vm_compute in Hl. destruct Hl as [<- | []]. reflexivity.
Defined.

(** X16. A missing file ends the run with status 1 and two lines of
    output that name it; when both files are missing the grid file is
    the one named, and the word file is named only when the grid file
    exists.  Nothing else is printed and no file is written. *)
Theorem main_reports_missing_file (a0 grid_file words_file : string)
    (fs : FileSystem) (stdout : string) :
  fs grid_file = None \/ fs words_file = None ->
  main [a0; grid_file; words_file] fs stdout
  = {| out_stdout :=
         print "Make sure both grid file and words file exist."
           (print ("Error: File not found - "
                   ++ match fs grid_file with
                      | None => grid_file
                      | Some _ => words_file
                      end)%string stdout);
       out_files := fs;
       exit_code := 1 |}.
Proof.
  intros H. unfold main, main_try.
  destruct (fs grid_file) as [gt|]; [|reflexivity].
  destruct H as [H | H]; [discriminate H|]. rewrite H. reflexivity.
Qed.

Lemma main_reports_missing_file_witness :
  sample_files "nope.txt"%string = None
  /\ out_stdout (main ["prog"; "nope.txt"; "none.txt"]%string
                   sample_files EmptyString)
     = ("Error: File not found - nope.txt" ++ line_feed
        ++ "Make sure both grid file and words file exist." ++ line_feed)%string.
Proof.
  split; [reflexivity|].
  rewrite (main_reports_missing_file "prog" "nope.txt" "none.txt"
             sample_files EmptyString); [reflexivity|].
  left. reflexivity.
Defined.

(* ================================================================== *)
(** ** The table of results, read back *)

Lemma string_forallb_impl (p q : ascii -> bool) (s : string) :
  (forall c, p c = true -> q c = true) ->
  string_forallb p s = true -> string_forallb q s = true.
Proof.
  intros Hpq. induction s as [|c s IH]; simpl; [reflexivity|].
  rewrite !andb_true_iff. intros [Hc Hs]. auto.
Qed.

Lemma space_free_one_line (s : string) :
  space_free s = true -> one_line s = true.
Proof.
  apply string_forallb_impl. intros c.
  destruct c as [[] [] [] [] [] [] [] []]; simpl; intros H;
    first [reflexivity | discriminate H].
Qed.

Lemma blank_repeat_space (n : nat) : blank (repeat_char " " n) = true.
Proof. induction n as [|n IH]; simpl; [reflexivity | exact IH]. Qed.

Lemma one_line_repeat_space (n : nat) :
  one_line (repeat_char " " n) = true.
Proof. induction n as [|n IH]; simpl; [reflexivity | exact IH]. Qed.

Lemma one_line_app (s t : string) :
  one_line (s ++ t)%string = one_line s && one_line t.
Proof. apply string_forallb_app. Qed.

Lemma blank_app (s t : string) :
  blank (s ++ t)%string = blank s && blank t.
Proof. apply string_forallb_app. Qed.

Lemma uint_space_free (d : Decimal.uint) :
  space_free (NilEmpty.string_of_uint d) = true.
Proof. induction d; simpl; try reflexivity; exact IHd. Qed.

Lemma str_of_int_token (z : Z) : token (str_of_int z).
Proof.
  unfold token, str_of_int.
  destruct (Z.to_int z) as [d | d]; simpl;
    destruct d; simpl; split; try reflexivity; apply uint_space_free.
Qed.

Lemma split_from_token (t : string) : forall s cur,
  space_free t = true ->
  split_from (t ++ s) cur = split_from s (cur ++ t).
Proof.
  induction t as [|c t IH]; intros s cur Ht; simpl.
  - rewrite append_nil_r. reflexivity.
  - simpl in Ht. apply andb_true_iff in Ht. destruct Ht as [Hc Ht].
    destruct (isspace c); [discriminate Hc|].
    rewrite IH by exact Ht. rewrite append_assoc. reflexivity.
Qed.

Lemma split_from_blank_app (b : string) : forall s,
  blank b = true ->
  split_from (b ++ s) EmptyString = split_from s EmptyString.
Proof.
  induction b as [|c b IH]; intros s Hb; simpl; [reflexivity|].
  simpl in Hb. apply andb_true_iff in Hb. destruct Hb as [Hc Hb].
  rewrite Hc. apply IH. exact Hb.
Qed.

(** A token followed by whitespace is the first token of the text. *)
Lemma split_from_token_blank (t b s : string) :
  token t -> blank b = true -> nonempty b = true ->
  split_from (t ++ b ++ s) EmptyString = t :: split_from s EmptyString.
Proof.
  intros [Hne Hsf] Hb Hbne. rewrite split_from_token by exact Hsf.
  simpl. destruct b as [|c b]; [discriminate Hbne|].
  simpl in Hb. apply andb_true_iff in Hb. destruct Hb as [Hc Hb].
  simpl. rewrite Hc. destruct t as [|a t]; [discriminate Hne|].
  f_equal. apply split_from_blank_app. exact Hb.
Qed.

Lemma split_from_last_token (t b : string) :
  token t -> blank b = true ->
  split_from (t ++ b) EmptyString = [t].
Proof.
  intros Ht Hb. destruct b as [|c b].
  - rewrite append_nil_r. destruct Ht as [Hne Hsf].
    pose proof (split_from_token t EmptyString EmptyString Hsf) as H.
    rewrite append_nil_r in H. rewrite H. simpl.
    destruct t; [discriminate Hne | reflexivity].
  - pose proof (split_from_token_blank t (String c b) EmptyString Ht Hb
                  eq_refl) as H.
    rewrite append_nil_r in H. exact H.
Qed.

(** A row of the table, with or without its line feed, splits into
    its four fields. *)
Lemma split_table_row (m : Match) (tail : string) :
  token (match_word m) -> token (match_direction m) ->
  blank tail = true ->
  split (table_row m ++ tail) = match_fields m.
Proof.
  destruct m as [[[w r] c] d].
  unfold match_word, match_direction, match_fields, match_row, match_col.
  simpl fst. simpl snd. intros Hw Hd Htail.
  unfold split, table_row, ljust, rjust.
  set (p1 := repeat_char " " (15 - String.length w)).
  set (p2 := repeat_char " " (9 - String.length (str_of_int r))).
  set (p3 := repeat_char " " (9 - String.length (str_of_int c))).
  set (p4 := repeat_char " " (20 - String.length d)).
  replace (((w ++ p1) ++ " " ++ (p2 ++ str_of_int r) ++ " "
            ++ (p3 ++ str_of_int c) ++ " " ++ d ++ p4) ++ tail)%string
    with (w ++ (p1 ++ " " ++ p2)
            ++ str_of_int r ++ (" " ++ p3)
            ++ str_of_int c ++ " "
            ++ d ++ (p4 ++ tail))%string
    by (rewrite !append_assoc; reflexivity).
  rewrite split_from_token_blank; [|exact Hw | |].
  2:{ unfold p1, p2. rewrite !blank_app, !blank_repeat_space. reflexivity. }
  2:{ unfold p1. destruct (repeat_char " " (15 - String.length w));
        reflexivity. }
  f_equal.
  rewrite split_from_token_blank;
    [|apply str_of_int_token | | reflexivity].
  2:{ unfold p3. rewrite blank_app, blank_repeat_space. reflexivity. }
  f_equal.
  rewrite split_from_token_blank;
    [|apply str_of_int_token | reflexivity | reflexivity].
  f_equal.
  apply split_from_last_token; [exact Hd|].
  unfold p4. rewrite blank_app, blank_repeat_space. exact Htail.
Qed.

Lemma one_line_table_row (m : Match) :
  token (match_word m) -> token (match_direction m) ->
  one_line (table_row m) = true.
Proof.
  destruct m as [[[w r] c] d].
  unfold match_word, match_direction. simpl fst. simpl snd.
  intros [_ Hw] [_ Hd].
  unfold table_row, ljust, rjust.
  rewrite !one_line_app, !one_line_repeat_space.
  rewrite (space_free_one_line w Hw), (space_free_one_line d Hd).
  rewrite !(space_free_one_line (str_of_int _))
    by apply str_of_int_token.
  reflexivity.
Qed.

Lemma lines_from_one_line (s : string) : forall rest cur,
  one_line s = true ->
  lines_from (s ++ String "010" rest) cur
  = (cur ++ s ++ String "010" EmptyString)%string
    :: lines_from rest EmptyString.
Proof.
  induction s as [|c s IH]; intros rest cur Hs; simpl.
  - reflexivity.
  - simpl in Hs. apply andb_true_iff in Hs. destruct Hs as [Hc Hs].
    destruct (Ascii.eqb c "010"); [discriminate Hc|].
    rewrite IH by exact Hs. rewrite append_assoc. reflexivity.
Qed.

Lemma lines_from_line (s : string) : forall rest cur,
  one_line s = true ->
  lines_from (s ++ line_feed ++ rest) cur
  = (cur ++ s ++ line_feed)%string :: lines_from rest EmptyString.
Proof. intros rest cur Hs. exact (lines_from_one_line s rest cur Hs). Qed.

Lemma write_rows_app (ms : list Match) : forall content,
  write_rows ms content
  = (content ++ write_rows ms EmptyString)%string.
Proof.
  induction ms as [|m ms IH]; intros content; simpl.
  - symmetry. apply append_nil_r.
  - rewrite IH. rewrite (IH (table_row m ++ line_feed)%string).
    rewrite !append_assoc. reflexivity.
Qed.

Lemma lines_write_rows (ms : list Match) :
  Forall (fun m => token (match_word m) /\ token (match_direction m)) ms ->
  map split (lines (write_rows ms EmptyString)) = map match_fields ms.
Proof.
  unfold lines. induction 1 as [|m ms [Hw Hd] _ IH]; [reflexivity|].
  simpl write_rows. rewrite write_rows_app, append_assoc.
  rewrite lines_from_line by (apply one_line_table_row; assumption).
  simpl. rewrite IH. f_equal.
  apply split_table_row; [exact Hw | exact Hd | reflexivity].
Qed.

(** After the header and the rule, the lines written split into the
    fields of the matches. *)
Lemma results_read_back (ms : list Match) :
  Forall (fun m => token (match_word m) /\ token (match_direction m)) ms ->
  map split
    (skipn 2 (lines (write_rows ms
                       (table_header ++ line_feed
                        ++ table_rule ++ line_feed)%string)))
  = map match_fields ms.
Proof.
  intros H. rewrite write_rows_app, !append_assoc. unfold lines.
  rewrite lines_from_line by reflexivity.
  rewrite lines_from_line by reflexivity.
  simpl skipn. apply lines_write_rows. exact H.
Qed.

Lemma py_index_In {A : Type} (l : list A) (i : Z) (a : A) :
  py_index l i = Ok a -> In a l.
Proof.
  unfold py_index.
  destruct ((0 <=? (if i <? 0 then i + len l else i))
            && ((if i <? 0 then i + len l else i) <? len l));
    [|discriminate].
  destruct (nth_error l _) as [x|] eqn:E; [|discriminate].
  intros H. injection H as <-. eapply nth_error_In. exact E.
Qed.

(** Every letter of a word that the matcher accepts is a cell of the
    grid, whatever the grid. *)
Lemma find_word_from_cells (g : Grid) (sr sc dr dc : Z) (chars : string) :
  forall i,
    find_word_from g chars i sr sc dr dc = Ok true ->
    forall k ch, String.get k chars = Some ch ->
      exists row, In row g /\ In (str ch) row.
Proof.
  induction chars as [|c rest IH]; intros i H k ch Hget;
    [discriminate Hget|].
  simpl in H. rewrite is_valid_position_in_bounds in H. simpl in H.
  destruct (in_bounds g (sr + i * dr) (sc + i * dc)); simpl in H;
    [|discriminate H].
  destruct (py_index g (sr + i * dr)) as [r|] eqn:Er; simpl in H;
    [|discriminate H].
  destruct (py_index r (sc + i * dc)) as [x|] eqn:Ex; simpl in H;
    [|discriminate H].
  destruct (String.eqb x (String c EmptyString)) eqn:Eq; simpl in H;
    [|discriminate H].
  apply String.eqb_eq in Eq. subst x.
  destruct k as [|k]; simpl in Hget.
  - injection Hget as <-. exists r. split; eapply py_index_In; eassumption.
  - apply (IH (i + 1) H k ch Hget).
Qed.

Lemma string_forallb_get (p : ascii -> bool) (s : string) :
  (forall k ch, String.get k s = Some ch -> p ch = true) ->
  string_forallb p s = true.
Proof.
  induction s as [|c s IH]; intros H; simpl; [reflexivity|].
  rewrite (H 0%nat c eq_refl). simpl. apply IH.
  intros k ch Hk. apply (H (S k) ch). exact Hk.
Qed.

Lemma occurs_space_free (g : Grid) (word : string) (r c : Z)
    (d : Direction) :
  (forall row x, In row g -> In x row -> space_free x = true) ->
  occurs g word r c d -> space_free word = true.
Proof.
  intros Hcells Hocc. apply string_forallb_get. intros k ch Hget.
  destruct (find_word_from_cells g r c (delta_row d) (delta_col d) word 0
              Hocc k ch Hget) as [row [Hrow Hin]].
  specialize (Hcells row (str ch) Hrow Hin).
  unfold space_free, str in Hcells. cbn [string_forallb] in Hcells.
  rewrite andb_true_r in Hcells. exact Hcells.
Qed.

Lemma direction_name_token (d : Direction) :
  In d get_directions -> token (direction_name d).
Proof.
  intros Hd. simpl in Hd.
  repeat (destruct Hd as [<- | Hd]; [split; reflexivity|]).
  contradiction.
Qed.

(** The matches found in a loaded grid for loaded words have a word and
    a direction that are tokens. *)
Lemma loaded_matches_tokens (grid_text words_text : string)
    (ms : list Match) :
  search_for_words (load_grid grid_text) (load_words words_text) = Ok ms ->
  Forall (fun m => token (match_word m) /\ token (match_direction m)) ms.
Proof.
  intros H. rewrite search_for_words_collect in H.
  apply collect_sound in H. destruct H as [_ Hin].
  apply Forall_forall. intros m Hm.
  destruct (Hin m Hm) as [w [Hw Hf]].
  apply first_match_Some_any in Hf.
  destruct Hf as [r [c [d [_ [Hd [Hocc ->]]]]]].
  unfold match_word, match_direction. simpl. split.
  - split.
    + unfold load_words in Hw. apply load_words_lines_upper in Hw.
      destruct Hw as [[] | [line [_ [_ Hne]]]]. exact Hne.
    + apply (occurs_space_free (load_grid grid_text) w r c d);
        [|exact Hocc].
      intros row x Hrow Hx.
      destruct (load_grid_rows grid_text row Hrow) as [_ Hc].
      apply (Hc x Hx).
  - apply direction_name_token. exact Hd.
Qed.

(** X17. The results file of a run that ends with status 0 reads back:
    after the header and the rule, its lines split into the word, the
    row, the column and the direction of the matches of the search, in
    their order. *)
Theorem main_results_read_back (argv : list string) (fs : FileSystem)
    (stdout : string) :
  exit_code (main argv fs stdout) = 0 ->
  exists a0 grid_file words_file grid_text words_text found_words content,
    argv = [a0; grid_file; words_file]
    /\ fs grid_file = Some grid_text /\ fs words_file = Some words_text
    /\ search_for_words (load_grid grid_text) (load_words words_text)
       = Ok found_words
    /\ out_files (main argv fs stdout) results_file = Some content
    /\ map split (skipn 2 (lines content)) = map match_fields found_words.
Proof.
  intros H0.
  destruct argv as [|a0 [|gf [|wf [|extra rest]]]];
    try (simpl in H0; discriminate H0).
  destruct (main_outcome a0 gf wf fs stdout) as [fs' [e [Hres [Hf He]]]].
  rewrite H0 in He. rewrite Hf.
  destruct Hres as [ | | | | gt wt ms Hg Hw Hne Hs]; try discriminate He.
  exists a0, gf, wf, gt, wt, ms. eexists.
  split; [reflexivity|]. split; [exact Hg|]. split; [exact Hw|].
  split; [exact Hs|]. split; [apply write_file_same|].
  apply results_read_back. apply (loaded_matches_tokens gt wt). exact Hs.
Qed.

Lemma main_results_read_back_witness :
  exit_code (main ["prog"; "grid.txt"; "words.txt"]%string
               sample_files EmptyString) = 0
  /\ exists found_words content,
       out_files (main ["prog"; "grid.txt"; "words.txt"]%string
                    sample_files EmptyString) results_file = Some content
       /\ map split (skipn 2 (lines content))
          = map match_fields found_words.
Proof.
  assert (H : exit_code (main ["prog"; "grid.txt"; "words.txt"]%string
                           sample_files EmptyString) = 0)
    by (vm_compute; reflexivity).
  split; [exact H|].
  destruct (main_results_read_back _ _ _ H)
    as [a0 [gf [wf [gt [wt [ms [content [_ [_ [_ [_ [Hc Hp]]]]]]]]]]]].
  exists ms, content. auto.
Defined.

(* ================================================================== *)
(** ** Grids with a short row *)

Lemma py_index_len {A : Type} (l : list A) : py_index l (len l) = IndexError.
Proof.
  unfold py_index. pose proof (len_nonneg l).
  replace (len l <? 0) with false by (symmetry; apply Z.ltb_ge; lia).
  rewrite Z.ltb_irrefl, andb_false_r. reflexivity.
Qed.

(** Started just after the end of a short row, the matcher raises. *)
Lemma find_word_at_missing_cell (g : Grid) (i : nat) (row : list string)
    (ch : ascii) (rest : string) (dr dc : Z) :
  nth_error g i = Some row -> len row < ncols g ->
  find_word_in_direction g (String ch rest) (Z.of_nat i) (len row) dr dc
  = IndexError.
Proof.
  intros Hrow Hshort.
  assert (Hi : 0 <= Z.of_nat i < len g).
  { assert (i < List.length g)%nat
      by (apply nth_error_Some; rewrite Hrow; discriminate).
    unfold len. lia. }
  unfold find_word_in_direction. cbn [find_word_from]. cbv zeta.
  replace (Z.of_nat i + 0 * dr) with (Z.of_nat i) by lia.
  replace (len row + 0 * dc) with (len row) by lia.
  rewrite is_valid_position_in_bounds.
  assert (Hb : in_bounds g (Z.of_nat i) (len row) = true).
  { apply in_bounds_true. unfold nrows. pose proof (len_nonneg row). lia. }
  rewrite Hb. cbn [bind negb].
  destruct (py_index_inside g (Z.of_nat i) Hi) as [r [Hr1 Hr2]].
  rewrite Nat2Z.id, Hrow in Hr2. injection Hr2 as <-.
  rewrite Hr1. cbn [bind]. rewrite py_index_len. reflexivity.
Qed.

(** X18. On a grid with a row shorter than the first one, a word that is
    not empty is never reported as not found: the searcher finds it
    before the missing cell or raises [IndexError]. *)
Theorem search_for_words_short_row (g : Grid) (i : nat)
    (row : list string) (word : string) :
  nth_error g i = Some row -> len row < ncols g ->
  nonempty word = true ->
  search_for_words g [word] = IndexError
  \/ exists m, search_for_words g [word] = Ok [m].
Proof.
  intros Hrow Hshort Hne.
  destruct (first_match g get_directions word) as [o|] eqn:Ho.
  2:{ left. rewrite search_for_words_collect. simpl. rewrite Ho.
      reflexivity. }
  rewrite (search_one g word o Ho).
  destruct o as [m|]; [right; exists m; reflexivity|]. exfalso.
  assert (Hi : 0 <= Z.of_nat i < len g).
  { assert (i < List.length g)%nat
      by (apply nth_error_Some; rewrite Hrow; discriminate).
    unfold len. lia. }
  pose proof (first_some_None _ _ Ho (Z.of_nat i)) as Hr.
  rewrite in_range in Hr. specialize (Hr Hi). unfold pick_row in Hr.
  assert (Hcols : exists row0, py_index g 0 = Ok row0 /\ len row0 = ncols g).
  { destruct g as [|row0 g']; [destruct i; discriminate Hrow|].
    exists row0. split; [apply py_index_first | reflexivity]. }
  destruct Hcols as [row0 [E0 Hlen]]. rewrite E0 in Hr. simpl bind in Hr.
  pose proof (first_some_None _ _ Hr (len row)) as Hc.
  rewrite in_range, Hlen in Hc.
  specialize (Hc (conj (len_nonneg row) Hshort)).
  pose proof (pick_column_None _ _ _ _ _ Hc
                (0, 1, "horizontal_right"%string) (or_introl eq_refl))
    as Hd.
  destruct word as [|ch rest]; [discriminate Hne|].
  rewrite (find_word_at_missing_cell g i row ch rest _ _ Hrow Hshort) in Hd.
  discriminate Hd.
Qed.

Lemma search_for_words_short_row_witness :
  nth_error grid_ragged 1 = Some ["C"%string]
  /\ len ["C"%string] < ncols grid_ragged
  /\ nonempty "CA" = true
  /\ (search_for_words grid_ragged ["CA"%string] = IndexError
      \/ exists m, search_for_words grid_ragged ["CA"%string] = Ok [m]).
Proof.
  split; [reflexivity|]. split; [reflexivity|]. split; [reflexivity|].
  apply (search_for_words_short_row grid_ragged 1 ["C"%string] "CA");
    reflexivity.
Defined.
